(** * File selection hook ([useFileHandler]) and its input component

    A shallow embedding of [useFileHandler.ts] (the selection/validation
    hook) and of the size formatter of [FileInput.tsx], with the properties
    of the specification stated against them.

    Conventions of the embedding.
    - A byte count ([File.size], [maxSize]) is an integer, [Z].
    - Every other JavaScript [number] that occurs is the result of
      [parseFloat (x.toFixed 1)].  Such a value is modelled by the exact
      rational its decimal text denotes ([Q]); [None] stands for [NaN].
      Dividing an integral double by a power of two is exact in binary64, and
      [toFixed] rounds the exact value of its receiver, so no rounding error
      is hidden by this choice.
    - Strings are [string]; arrays are [list]; an optional property is an
      [option].
    - Browser effects ([URL.createObjectURL], [URL.revokeObjectURL]), the
      two callbacks and React's state setters are operations of a small state
      monad over [World], which records them in a chronological [trace]. *)

From Stdlib Require Import ZArith NArith QArith Qabs Qround List String Ascii Bool Lia.
Import ListNotations.

Local Open Scope string_scope.

(** ** Strings *)

Module Str.

(** The one-character string holding a double quote (code point 34). *)
Definition dquote : string := String "034"%char EmptyString.

(** [String.prototype.startsWith]. *)
Fixpoint startsWith (s p : string) {struct p} : bool :=
  match p with
  | EmptyString => true
  | String c p' =>
      match s with
      | EmptyString => false
      | String d s' => if Ascii.eqb c d then startsWith s' p' else false
      end
  end.

(** [String.prototype.includes]: does [key] occur somewhere in [s]? *)
Fixpoint includes (s key : string) : bool :=
  if startsWith s key then true
  else match s with
       | EmptyString => false
       | String _ s' => includes s' key
       end.

(** Occurrence of [key] inside [s], as a proposition. *)
Definition Occurs (key s : string) : Prop :=
  exists pre post, s = pre ++ key ++ post.

(** A JavaScript string is truthy when it is not empty. *)
Definition truthy (s : string) : bool :=
  match s with EmptyString => false | String _ _ => true end.

End Str.

(** ** Decimal text of numbers *)

Module Num.

Definition digitChar (d : N) : ascii := ascii_of_N (48 + d).

Definition digitValue (c : ascii) : option N :=
  let k := N_of_ascii c in
  if ((48 <=? k) && (k <=? 57))%N then Some (k - 48)%N else None.

(** Digits of [n], most significant first, pushed in front of [acc]. *)
Fixpoint decimalDigits (fuel : nat) (n : N) (acc : string) : string :=
  match fuel with
  | O => acc
  | S fuel' =>
      let acc' := String (digitChar (n mod 10)) acc in
      if (n / 10 =? 0)%N then acc' else decimalDigits fuel' (n / 10) acc'
  end.

(** Decimal numeral of a natural number: ["0"], ["7"], ["1024"]. *)
Definition decimalOfN (n : N) : string :=
  decimalDigits (S (N.size_nat n)) n EmptyString.

(** Decimal numeral of an integer, as [Number::toString] prints it. *)
Definition decimalOfZ (z : Z) : string :=
  ((if (z <? 0)%Z then "-" else EmptyString) ++ decimalOfN (Z.abs_N z)).

(** Reads the longest run of decimal digits in front of [s]: the value read
    so far, the number of digits consumed and the rest of the input. *)
Fixpoint scanDigits (s : string) (acc : N) (count : nat) : N * nat * string :=
  match s with
  | EmptyString => (acc, count, s)
  | String c s' =>
      match digitValue c with
      | Some d => scanDigits s' (10 * acc + d)%N (S count)
      | None => (acc, count, s)
      end
  end.

(** The integer [n] closest to [10 * x], the larger one on a tie, for
    [0 <= x]: the [n] of [Number.prototype.toFixed] with one fraction digit. *)
Definition tenthsOf (x : Q) : N := Z.to_N (Qfloor (x * (10 # 1) + (1 # 2))%Q).

(** [x.toFixed(1)] for [|x| < 10^21]: a sign for negative [x], the numeral of
    [n] with a point before its last digit, where [n] is [tenthsOf |x|]. *)
Definition toFixed1 (x : Q) : string :=
  let neg := (Qnum x <? 0)%Z in
  let n := tenthsOf (Qabs x) in
  (if neg then "-" else EmptyString)
    ++ decimalOfN (n / 10) ++ "." ++ String (digitChar (n mod 10)) EmptyString.

(** [parseFloat] on the decimal literals without exponent: an optional
    sign, digits, an optional point and digits; [None] ([NaN]) when no digit
    is found.  The value is the rational the literal denotes. *)
Definition parseFloat (s : string) : option Q :=
  let '(neg, s1) :=
    match s with
    | String "-" r => (true, r)
    | String "+" r => (false, r)
    | _ => (false, s)
    end in
  let '(ip, ni, s2) := scanDigits s1 0%N O in
  let '(fp, nf, _) :=
    match s2 with
    | String "." r => scanDigits r 0%N O
    | _ => (0%N, O, s2)
    end in
  match ni, nf with
  | O, O => None
  | _, _ =>
      let scale := Z.to_pos (10 ^ Z.of_nat nf) in
      let mag := (Z.of_N ip * Zpos scale + Z.of_N fp)%Z in
      Some (Qmake (if neg then (- mag)%Z else mag) scale)
  end.

(** What [parseFloat] computes once the sign is known to be absent. *)
Definition parseUnsigned (s1 : string) : option Q :=
  let '(ip, ni, s2) := scanDigits s1 0%N O in
  let '(fp, nf, _) :=
    match s2 with
    | String "." r => scanDigits r 0%N O
    | _ => (0%N, O, s2)
    end in
  match ni, nf with
  | O, O => None
  | _, _ =>
      let scale := Z.to_pos (10 ^ Z.of_nat nf) in
      Some (Qmake (Z.of_N ip * Zpos scale + Z.of_N fp)%Z scale)
  end.

(** Fraction digits of [r / d] for [0 <= r < d], by long division. *)
Fixpoint fractionDigits (fuel : nat) (r d : Z) : string :=
  match fuel with
  | O => EmptyString
  | S fuel' =>
      if (r =? 0)%Z then EmptyString
      else String (digitChar (Z.to_N (r * 10 / d)))
                  (fractionDigits fuel' ((r * 10) mod d) d)
  end.

(** [Number::toString] of a value with a short terminating decimal
    expansion: integer part, then a point and the fraction digits when the
    fraction is not zero (["5"], ["1.5"], ["-0.3"]). *)
Definition toString (q : Q) : string :=
  let a := Z.abs (Qnum q) in
  let d := Zpos (Qden q) in
  let frac := fractionDigits 20 (a mod d) d in
  (if (Qnum q <? 0)%Z then "-" else EmptyString)
    ++ decimalOfN (Z.to_N (a / d))
    ++ match frac with
       | EmptyString => EmptyString
       | _ => "." ++ frac
       end.

(** Template-literal conversion of a [number]. *)
Definition display (v : option Q) : string :=
  match v with
  | Some q => toString q
  | None => "NaN"
  end.

End Num.

(** ** Data model of [useFileHandler.ts] *)

Inductive FileType := Audio | Image | Text | Video.

(** The string each member of the [FileType] enum stands for. *)
Definition FileType_value (t : FileType) : string :=
  match t with
  | Audio => "audio/*"
  | Image => "image/*"
  | Text => "text/*"
  | Video => "video/*"
  end.

Inductive ByteUnit := MB | GB.

Definition ByteUnit_value (u : ByteUnit) : string :=
  match u with
  | MB => "MB"
  | GB => "GB"
  end.

(** The attributes of a platform [File] that the hook reads. *)
Record File := mkFile {
  name : string;
  size : Z;
  type : string
}.

(** [FileWithPreview extends File] with two optional properties. *)
Record FileWithPreview := mkFileWithPreview {
  asFile : File;
  preview : option string;
  error : option string
}.

(** [{ ...file }]: the copy carries the file's attributes and neither
    optional property. *)
Definition spread (file : File) : FileWithPreview :=
  mkFileWithPreview file None None.

Definition withPreview (f : FileWithPreview) (url : string) : FileWithPreview :=
  mkFileWithPreview (asFile f) (Some url) (error f).

Definition withError (f : FileWithPreview) (e : string) : FileWithPreview :=
  mkFileWithPreview (asFile f) (preview f) (Some e).

(** The preview of [f] when it is truthy (present and not empty). *)
Definition truthyPreview (f : FileWithPreview) : option string :=
  match preview f with
  | Some url => if Str.truthy url then Some url else None
  | None => None
  end.

(** ** Pure helpers of the module *)

(** [bytesToUnit]: [parseFloat((bytes / 2^20).toFixed(1))] for ['MB'],
    the same with [2^30] for ['GB']. *)
Definition bytesToUnit (bytes : Z) (unit : ByteUnit) : option Q :=
  match unit with
  | MB =>
      let mb := (inject_Z bytes / inject_Z (1024 * 1024))%Q in
      Num.parseFloat (Num.toFixed1 mb)
  | GB =>
      let gb := (inject_Z bytes / inject_Z (1024 * 1024 * 1024))%Q in
      Num.parseFloat (Num.toFixed1 gb)
  end.

(** The [typeMap] object literal of [mapType]; [for ... in] visits its keys
    in insertion order. *)
Definition typeMap : list (string * FileType) :=
  [ ("application", Text); ("text", Text); ("image", Image);
    ("audio", Audio); ("video", Video) ].

Fixpoint mapTypeLoop (entries : list (string * FileType)) (type : string)
  : FileType :=
  match entries with
  | [] => Image
  | (key, v) :: rest =>
      if Str.includes type key then v else mapTypeLoop rest type
  end.

Definition mapType (type : string) : FileType := mapTypeLoop typeMap type.

Definition getAppropriateUnit (bytes : Z) : ByteUnit :=
  if (1024 * 1024 * 1024 <=? bytes)%Z then GB else MB.

(** [bytesToMB] of [FileInput.tsx]. *)
Definition bytesToMB (bytes : Z) : option Q :=
  let mb := (inject_Z bytes / inject_Z (1024 * 1024))%Q in
  Num.parseFloat (Num.toFixed1 mb).

(** [array.slice(0, n)] for an integral [n]; a negative [n] counts from the
    end of the array. *)
Definition slice0 {A} (n : Z) (l : list A) : list A :=
  if (n <? 0)%Z
  then firstn (Z.to_nat (Z.max 0 (Z.of_nat (List.length l) + n))) l
  else firstn (Z.to_nat n) l.

(** [array.filter((_, i) => i !== index)], counting positions from [i]. *)
Fixpoint filterNotIndex {A} (index i : nat) (l : list A) : list A :=
  match l with
  | [] => []
  | x :: rest =>
      if Nat.eqb i index then filterNotIndex index (S i) rest
      else x :: filterNotIndex index (S i) rest
  end.

(** ** The hook instance and its effects *)

Inductive Event :=
| CreateObjectURL (url : string)
| RevokeObjectURL (url : string)
| OnFilesChanged (fs : list FileWithPreview)
| OnFilesRejected (fs : list FileWithPreview).

(** One mounted instance of the hook, together with the browser.
    [files] and [errors] are the values of the last render, which the
    handlers close over; [pendingFiles] and [pendingErrors] are the updates
    queued by [setFiles] and [setErrors] since then; [nextUrl] numbers the
    object URLs handed out so far. *)
Record World := mkWorld {
  files : list FileWithPreview;
  errors : list string;
  pendingFiles : option (list FileWithPreview);
  pendingErrors : option (list string);
  nextUrl : N;
  trace : list Event
}.

Definition M (A : Type) : Type := World -> A * World.

Definition ret {A} (a : A) : M A := fun w => (a, w).

Definition bind {A B} (c : M A) (k : A -> M B) : M B :=
  fun w => let '(a, w') := c w in k a w'.

Declare Scope hook_scope.
Delimit Scope hook_scope with hook.
Notation "x <- c ;; k" := (bind c (fun x => k))
  (at level 61, c at next level, right associativity) : hook_scope.
Notation "c ;; k" := (bind c (fun _ => k))
  (at level 61, right associativity) : hook_scope.
Local Open Scope hook_scope.

Definition exec {A} (c : M A) (w : World) : World := snd (c w).

Definition emit (e : Event) : M unit := fun w =>
  (tt, mkWorld (files w) (errors w) (pendingFiles w) (pendingErrors w)
               (nextUrl w) (trace w ++ [e])%list).

(** [URL.createObjectURL]: a URL that was never handed out before. *)
Definition createObjectURL (_ : File) : M string := fun w =>
  let url := "blob:" ++ Num.decimalOfN (nextUrl w) in
  (url, mkWorld (files w) (errors w) (pendingFiles w) (pendingErrors w)
                (N.succ (nextUrl w)) (trace w ++ [CreateObjectURL url])%list).

Definition revokeObjectURL (url : string) : M unit := emit (RevokeObjectURL url).

(** The [files] value captured by the closures of the current render. *)
Definition getFiles : M (list FileWithPreview) := fun w => (files w, w).

Definition setFiles (fs : list FileWithPreview) : M unit := fun w =>
  (tt, mkWorld (files w) (errors w) (Some fs) (pendingErrors w)
               (nextUrl w) (trace w)).

Definition setErrors (es : list string) : M unit := fun w =>
  (tt, mkWorld (files w) (errors w) (pendingFiles w) (Some es)
               (nextUrl w) (trace w)).

(** [setErrors(prev => ...)]: the updater sees the queued value if any. *)
Definition setErrorsWith (f : list string -> list string) : M unit := fun w =>
  let prev := match pendingErrors w with
              | Some es => es
              | None => errors w
              end in
  (tt, mkWorld (files w) (errors w) (pendingFiles w) (Some (f prev))
               (nextUrl w) (trace w)).

(** [array.forEach] with a loop-carried value. *)
Fixpoint forEachM {A S} (body : S -> A -> M S) (l : list A) (s : S) : M S :=
  match l with
  | [] => ret s
  | x :: rest => s' <- body s x ;; forEachM body rest s'
  end.

(** [revokePreviews]. *)
Fixpoint revokePreviews (fileList : list FileWithPreview) : M unit :=
  match fileList with
  | [] => ret tt
  | file :: rest =>
      match truthyPreview file with
      | Some url => revokeObjectURL url ;; revokePreviews rest
      | None => revokePreviews rest
      end
  end.

(** The three arrays [validateSelectedFiles] fills. *)
Record Validation := mkValidation {
  acceptedFiles : list FileWithPreview;
  rejectedFiles : list FileWithPreview;
  errorMessages : list string
}.

Record UseFileHandlerProps := mkProps {
  maxFiles : Z;
  maxSize : Z;
  acceptedType : string;
  (** whether the optional callback was supplied *)
  onFilesRejected : bool
}.

Section Hook.

Variable props : UseFileHandlerProps.

Definition validateFile (file : File) : option string :=
  if (maxSize props <? size file)%Z then
    let unit := getAppropriateUnit (maxSize props) in
    let maxSizeFormatted := bytesToUnit (maxSize props) unit in
    Some ("The file " ++ Str.dquote ++ name file ++ Str.dquote
            ++ " exceeds the maximum size of " ++ Num.display maxSizeFormatted
            ++ " " ++ ByteUnit_value unit ++ ".")
  else
    let mappedType := mapType (type file) in
    if negb (String.eqb (FileType_value mappedType) (acceptedType props)) then
      Some ("The file type " ++ Str.dquote ++ type file ++ Str.dquote
              ++ " is not accepted.")
    else None.

(** [if (error)]: [null] and the empty string are falsy. *)
Definition truthyError (e : option string) : option string :=
  match e with
  | Some msg => if Str.truthy msg then Some msg else None
  | None => None
  end.

(** The body of the [forEach] of [validateSelectedFiles]. *)
Definition validateStep (v : Validation) (file : File) : M Validation :=
  let error := validateFile file in
  let fileWithPreview := spread file in
  match truthyError error with
  | Some e =>
      ret (mkValidation (acceptedFiles v)
                        (rejectedFiles v ++ [withError fileWithPreview e])%list
                        (errorMessages v ++ [e])%list)
  | None =>
      if Str.startsWith (type file) "image/" then
        url <- createObjectURL file ;;
        ret (mkValidation (acceptedFiles v ++ [withPreview fileWithPreview url])%list
                          (rejectedFiles v) (errorMessages v))
      else
        ret (mkValidation (acceptedFiles v ++ [fileWithPreview])%list
                          (rejectedFiles v) (errorMessages v))
  end.

Definition validateSelectedFiles (selectedFiles : list File) : M Validation :=
  forEachM validateStep selectedFiles (mkValidation [] [] []).

(** [getNewFiles]; [None] is its [null]. *)
Definition getNewFiles (accepted : list FileWithPreview)
  : M (option (list FileWithPreview)) :=
  fs <- getFiles ;;
  if (maxFiles props =? 1)%Z then
    revokePreviews fs ;;
    ret (Some (slice0 (maxFiles props) accepted))
  else
    let totalFiles := (Z.of_nat (List.length fs) + Z.of_nat (List.length accepted))%Z in
    if (maxFiles props <? totalFiles)%Z then
      let numToAdd := (maxFiles props - Z.of_nat (List.length fs))%Z in
      if (0 <? numToAdd)%Z then ret (Some (fs ++ slice0 numToAdd accepted)%list)
      else ret None
    else ret (Some (fs ++ accepted)%list).

Definition maxFilesError : string :=
  "You can upload a maximum of " ++ Num.decimalOfZ (maxFiles props) ++ " file(s).".

Definition countError : string := "Exceeded the maximum number of allowed files.".

(** The closing [if] of [handleFiles]. *)
Definition notifyRejected (rejected : list FileWithPreview) : M unit :=
  if (0 <? List.length rejected)%nat && onFilesRejected props
  then emit (OnFilesRejected rejected)
  else ret tt.

Definition handleFiles (selectedFiles : list File) : M unit :=
  v <- validateSelectedFiles selectedFiles ;;
  setErrors (errorMessages v) ;;
  if (0 <? List.length (acceptedFiles v))%nat then
    newFiles <- getNewFiles (acceptedFiles v) ;;
    match newFiles with
    | Some nf =>
        setFiles nf ;;
        emit (OnFilesChanged nf) ;;
        notifyRejected (rejectedFiles v)
    | None =>
        setErrorsWith (fun prevErrors => (prevErrors ++ [maxFilesError])%list) ;;
        if onFilesRejected props then
          emit (OnFilesRejected
                  (map (fun file => withError file countError) (acceptedFiles v)))
        else ret tt
    end
  else notifyRejected (rejectedFiles v).

Definition removeFile (index : nat) : M unit :=
  fs <- getFiles ;;
  let fileToRemove := nth_error fs index in
  (match fileToRemove with
   | Some f =>
       match truthyPreview f with
       | Some url => revokeObjectURL url
       | None => ret tt
       end
   | None => ret tt
   end) ;;
  let newFiles := filterNotIndex index 0 fs in
  setFiles newFiles ;;
  emit (OnFilesChanged newFiles).

(** The mapping function of the [currentFiles] effect. *)
Definition initializeFile (file : FileWithPreview) : FileWithPreview :=
  match truthyPreview file with
  | Some _ => file
  | None =>
      if Str.truthy (type (asFile file))
         && Str.startsWith (type (asFile file)) "image/"
      then mkFileWithPreview (asFile file) (Some EmptyString) (error file)
      else file
  end.

(** The [currentFiles] effect, once its promise has settled. *)
Definition adoptCurrentFiles (currentFiles : option (list FileWithPreview))
  : M unit :=
  match currentFiles with
  | None => ret tt
  | Some cf =>
      let initializedFiles := map initializeFile cf in
      setFiles initializedFiles ;;
      emit (OnFilesChanged initializedFiles)
  end.

(** The next render.  Every [setFiles] of the hook passes a newly built
    array, so a queued files update always changes the dependency of the
    last effect: React runs that effect's cleanup, which closes over the
    files of the render being replaced, and then the new values take over. *)
Definition rerender : M unit := fun w =>
  let '(_, w1) :=
    match pendingFiles w with
    | Some _ => revokePreviews (files w) w
    | None => (tt, w)
    end in
  (tt, mkWorld (match pendingFiles w1 with Some nf => nf | None => files w1 end)
               (match pendingErrors w1 with Some es => es | None => errors w1 end)
               None None (nextUrl w1) (trace w1)).

(** Unmounting runs the cleanup of the last effect. *)
Definition unmount : M unit := fs <- getFiles ;; revokePreviews fs.

(** What a user or the owner of the component can do to a mounted hook. *)
Inductive Action :=
| HandleFiles (selectedFiles : list File)
| RemoveFile (index : nat)
| AdoptCurrentFiles (currentFiles : list FileWithPreview).

(** An action and the render that follows it. *)
Definition dispatch (a : Action) : M unit :=
  match a with
  | HandleFiles selectedFiles => handleFiles selectedFiles ;; rerender
  | RemoveFile index => removeFile index ;; rerender
  | AdoptCurrentFiles cf => adoptCurrentFiles (Some cf) ;; rerender
  end.

Fixpoint dispatchAll (actions : list Action) : M unit :=
  match actions with
  | [] => ret tt
  | a :: rest => dispatch a ;; dispatchAll rest
  end.

End Hook.

(** The first render: [useState([])] twice, nothing queued, no effect yet. *)
Definition mount : World := mkWorld [] [] None None 0 [].

(** ** Reading a trace *)

Fixpoint revokedUrls (tr : list Event) : list string :=
  match tr with
  | [] => []
  | RevokeObjectURL url :: rest => url :: revokedUrls rest
  | _ :: rest => revokedUrls rest
  end.

Fixpoint createdUrls (tr : list Event) : list string :=
  match tr with
  | [] => []
  | CreateObjectURL url :: rest => url :: createdUrls rest
  | _ :: rest => createdUrls rest
  end.

Definition revokeCount (url : string) (tr : list Event) : nat :=
  count_occ string_dec (revokedUrls tr) url.

Definition isOnFilesChanged (e : Event) : bool :=
  match e with OnFilesChanged _ => true | _ => false end.

Definition isOnFilesRejected (e : Event) : bool :=
  match e with OnFilesRejected _ => true | _ => false end.

Definition isCallback (e : Event) : bool :=
  isOnFilesChanged e || isOnFilesRejected e.

(** The preview URLs that [revokePreviews] would revoke. *)
Definition previewUrls (l : list FileWithPreview) : list string :=
  flat_map (fun f => match truthyPreview f with
                     | Some url => [url]
                     | None => []
                     end) l.

(** ** What one validation pass yields, without the effects *)

Section Classification.

Variable props : UseFileHandlerProps.

(** The entries [validateSelectedFiles] pushes to [rejectedFiles]. *)
Definition rejectedOf (l : list File) : list FileWithPreview :=
  flat_map (fun file =>
              match truthyError (validateFile props file) with
              | Some e => [withError (spread file) e]
              | None => []
              end) l.

(** The messages it pushes to [errorMessages]. *)
Definition messagesOf (l : list File) : list string :=
  flat_map (fun file =>
              match truthyError (validateFile props file) with
              | Some e => [e]
              | None => []
              end) l.

(** The entries it pushes to [acceptedFiles] when the next object URL has
    number [next]. *)
Fixpoint acceptedOf (l : list File) (next : N) : list FileWithPreview :=
  match l with
  | [] => []
  | file :: rest =>
      match truthyError (validateFile props file) with
      | Some _ => acceptedOf rest next
      | None =>
          if Str.startsWith (type file) "image/"
          then withPreview (spread file) ("blob:" ++ Num.decimalOfN next)
                 :: acceptedOf rest (N.succ next)
          else spread file :: acceptedOf rest next
      end
  end.

End Classification.

(** ** What the handlers decide, without the effects *)

Section Decisions.

Variable props : UseFileHandlerProps.

(** The value [getNewFiles] returns when the rendered files are [fs]. *)
Definition newFilesOf (fs accepted : list FileWithPreview)
  : option (list FileWithPreview) :=
  if (maxFiles props =? 1)%Z then Some (slice0 (maxFiles props) accepted)
  else
    let totalFiles := (Z.of_nat (List.length fs) + Z.of_nat (List.length accepted))%Z in
    if (maxFiles props <? totalFiles)%Z then
      let numToAdd := (maxFiles props - Z.of_nat (List.length fs))%Z in
      if (0 <? numToAdd)%Z then Some (fs ++ slice0 numToAdd accepted)%list
      else None
    else Some (fs ++ accepted)%list.

(** The revocations [getNewFiles] performs on the way. *)
Definition replacedPreviews (fs : list FileWithPreview) : list Event :=
  if (maxFiles props =? 1)%Z then map RevokeObjectURL (previewUrls fs) else [].

(** The call the closing [if] of [handleFiles] makes, if any. *)
Definition rejectionEvents (rejected : list FileWithPreview) : list Event :=
  if (0 <? List.length rejected)%nat && onFilesRejected props
  then [OnFilesRejected rejected]
  else [].

(** The call of the count-limit branch, if any. *)
Definition countRejectionEvents (accepted : list FileWithPreview) : list Event :=
  if onFilesRejected props
  then [OnFilesRejected (map (fun file => withError file countError) accepted)]
  else [].

End Decisions.

(** ** Sample data *)

Module Sample.

Definition fiveMiB : Z := 5 * 1024 * 1024.

Definition single : UseFileHandlerProps := mkProps 1 fiveMiB "image/*" true.
Definition pair : UseFileHandlerProps := mkProps 2 fiveMiB "image/*" true.
Definition triple : UseFileHandlerProps := mkProps 3 fiveMiB "image/*" true.
Definition pairSilent : UseFileHandlerProps := mkProps 2 fiveMiB "image/*" false.

Definition a : File := mkFile "a.png" 100 "image/png".
Definition b : File := mkFile "b.png" 200 "image/png".
Definition c : File := mkFile "c.png" 300 "image/png".
Definition d : File := mkFile "d.png" 400 "image/png".
Definition e : File := mkFile "e.png" 500 "image/png".
Definition huge : File := mkFile "huge.png" (6 * 1024 * 1024) "image/png".
Definition notes : File := mkFile "notes.txt" 10 "text/plain".
Definition clip : File := mkFile "clip.mp4" (6 * 1024 * 1024) "video/mp4".
Definition solid : File :=
  mkFile "part.x_t" 10 "model/vnd.parasolid.transmit.text".

(** A hook that has been handed [a] and [b] and holds both, each with its
    preview. *)
Definition holdingTwo : World :=
  Eval vm_compute in exec (dispatch pair (HandleFiles [a; b])) mount.

(** A hook that has been handed [a] and holds it. *)
Definition holdingOne : World :=
  Eval vm_compute in exec (dispatch single (HandleFiles [a])) mount.

End Sample.

(** ** The specification's vocabulary *)

(** Rounding to one decimal place, half up at the tenths digit. *)
Definition roundToTenth (x : Q) : Q :=
  Qmake (Qfloor (x * (10 # 1) + (1 # 2))%Q) 10.

(** The top-level type of a mime string: the text before its first slash. *)
Fixpoint topLevelType (mime : string) : string :=
  match mime with
  | EmptyString => EmptyString
  | String c rest =>
      if Ascii.eqb c "/" then EmptyString else String c (topLevelType rest)
  end.

(** The category the specification assigns to a top-level type. *)
Definition categoryOfTopLevel (top : string) : FileType :=
  if String.eqb top "application" then Text
  else if String.eqb top "text" then Text
  else if String.eqb top "image" then Image
  else if String.eqb top "audio" then Audio
  else if String.eqb top "video" then Video
  else Image.

(** The claim of the specification on categories, at one candidate: the
    category follows the top-level type, and a candidate of another category
    than the accepted one gets a message that states its mime type. *)
Definition CategoryFromTopLevel (props : UseFileHandlerProps) (file : File)
  : Prop :=
  mapType (type file) = categoryOfTopLevel (topLevelType (type file))
  /\ (FileType_value (mapType (type file)) <> acceptedType props ->
      exists msg, validateFile props file = Some msg
                  /\ Str.Occurs (type file) msg).

(** The errors the next render shows. *)
Definition nextErrors (w : World) : list string :=
  match pendingErrors w with
  | Some es => es
  | None => errors w
  end.

(** The events a computation adds to the trace of [w]. *)
Definition emitted {A} (c : M A) (w : World) : list Event :=
  skipn (List.length (trace w)) (trace (exec c w)).

(** The claim of the specification on a full list, at one batch: the list
    stays, [onFilesChanged] is not called, the maximum-files error is
    appended, and [onFilesRejected] gets the accepted batch, annotated, in
    one call and the batch's invalid files in another. *)
Definition CountRejectionAsStated (props : UseFileHandlerProps) (w : World)
           (batch : list File) : Prop :=
  let v := fst (validateSelectedFiles props batch w) in
  let w1 := exec (handleFiles props batch) w in
  let calls := emitted (handleFiles props batch) w in
  (1 < maxFiles props)%Z ->
  (maxFiles props - Z.of_nat (List.length (files w)) <= 0)%Z ->
  pendingFiles w1 = pendingFiles w
  /\ filter isOnFilesChanged calls = []
  /\ In (maxFilesError props) (nextErrors w1)
  /\ (onFilesRejected props = true ->
      In (OnFilesRejected
            (map (fun file => withError file countError) (acceptedFiles v)))
         calls
      /\ (rejectedFiles v <> [] -> In (OnFilesRejected (rejectedFiles v)) calls)).

(** The claim of the specification on a stale index: nothing changes and no
    callback runs. *)
Definition RemoveBeyondLengthSilent (w : World) (index : nat) : Prop :=
  (List.length (files w) <= index)%nat ->
  files (exec rerender (exec (removeFile index) w)) = files w
  /\ filter isCallback (emitted (removeFile index) w) = [].

(** The claim of the specification on the size of the list: whatever is
    done to a freshly mounted hook, it never holds more than [maxFiles]. *)
Definition BoundedFromMount (props : UseFileHandlerProps) : Prop :=
  forall actions : list Action,
    (Z.of_nat (List.length (files (exec (dispatchAll props actions) mount)))
     <= maxFiles props)%Z.

(** A world between two events: nothing is queued. *)
Definition Rendered (w : World) : Prop :=
  pendingFiles w = None /\ pendingErrors w = None.

(** ** Vocabulary for the remaining handlers *)


(** The object URL with number [k]. *)
Definition blobUrl (k : N) : string := "blob:" ++ Num.decimalOfN k.

(** No two files of the list share a preview URL, and every preview URL of
    the list was handed out by [URL.createObjectURL]. *)
Definition FreshPreviews (w : World) : Prop :=
  NoDup (previewUrls (files w))
  /\ forall url, In url (previewUrls (files w)) ->
                 exists k, (k < nextUrl w)%N /\ url = blobUrl k.

Definition isAdoption (a : Action) : bool :=
  match a with AdoptCurrentFiles _ => true | _ => false end.

(** The files of a list that pass validation, and those that do not. *)
Definition passes (props : UseFileHandlerProps) (file : File) : bool :=
  match validateFile props file with
  | None => true
  | Some _ => false
  end.

(** ** [FileInput.tsx] *)

Module FileInput.

(** The first [k] characters of [s]. *)
Fixpoint take (k : nat) (s : string) : string :=
  match k, s with
  | S k', String c rest => String c (take k' rest)
  | _, _ => EmptyString
  end.

(** [str.substring(0, n)] for an integral [n]: a negative [n] counts as
    zero, one beyond the length as the length. *)
Definition substring0 (n : Z) (s : string) : string := take (Z.to_nat n) s.

(** [firstNChars]; [None] is an [undefined] argument. *)
Definition firstNChars (str : option string) (n : Z) (ellipsis : bool) : string :=
  match str with
  | None => EmptyString
  | Some s =>
      if negb (Str.truthy s) then EmptyString
      else if (Z.of_nat (String.length s) <=? n)%Z then s
      else substring0 n s ++ (if ellipsis then "..." else EmptyString)
  end.

Inductive PreviewImageMode := Default | ImageCover.

(** The props of [FileInput] that decide what it renders and how it reacts,
    after the defaults of the parameter list have been filled in. *)
Record Props := mkInputProps {
  children : bool;
  acceptedType : FileType;
  maxFiles : Z;
  maxSize : Z;
  previewMode : PreviewImageMode;
  preventOpenFileDialog : bool;
  onFilesRejected : bool
}.

(** The object handed to [useFileHandler]. *)
Definition hookProps (p : Props) : UseFileHandlerProps :=
  mkProps (maxFiles p) (maxSize p) (FileType_value (acceptedType p))
          (onFilesRejected p).

Definition isImageCover (m : PreviewImageMode) : bool :=
  match m with ImageCover => true | Default => false end.

Definition isImageType (t : FileType) : bool :=
  match t with Image => true | _ => false end.

(** [files[0]?.preview], when truthy. *)
Definition firstPreview (fs : list FileWithPreview) : option string :=
  match fs with
  | [] => None
  | f :: _ => truthyPreview f
  end.

Definition isCoverImage (p : Props) (fs : list FileWithPreview) : bool :=
  isImageCover (previewMode p) && isImageType (acceptedType p)
  && match firstPreview fs with Some _ => true | None => false end.

(** The hyphen between the name and the index in the key of a row. *)
Definition dash : ascii := "-"%char.

(** One row of [renderFiles]: its React key, the shown name and the shown
    size. *)
Record Row := mkRow {
  rowKey : string;
  rowLabel : string;
  rowSize : string
}.

(** [files.map((file, index) => ...)], counting from [index]. *)
Fixpoint renderFiles (index : N) (fs : list FileWithPreview) : list Row :=
  match fs with
  | [] => []
  | file :: rest =>
      mkRow (name (asFile file) ++ "-" ++ Num.decimalOfN index)
            (firstNChars (Some (name (asFile file))) 40 true)
            (Num.display (bytesToMB (size (asFile file))) ++ " MB")
        :: renderFiles (N.succ index) rest
  end.






(** What a handler of the component does, in order. *)
Inductive Effect :=
| PreventDefault
| StopPropagation
| InputClick
| Hook (a : Action).





Definition onDragOver : list Effect := [PreventDefault].

(** [event.target.files] is [null] for an input that is not a file input. *)
Definition onInputChange (selected : option (list File)) : list Effect :=
  match selected with
  | Some fs => [Hook (HandleFiles fs)]
  | None => []
  end.

(** The [onClick] of the remove button of the row at [index]. *)
Definition removeClick (index : nat) : list Effect :=
  [StopPropagation; Hook (RemoveFile index)].

(** The same in [part_003], which passes the constant [0]. *)
Definition removeClick_v1 (index : nat) : list Effect :=
  [StopPropagation; Hook (RemoveFile 0)].

(** The hook actions among the effects of a handler, run one after the
    other, each followed by its render. *)
Definition hookActions (effects : list Effect) : list Action :=
  flat_map (fun e => match e with Hook a => [a] | _ => [] end) effects.

Definition opensDialog (effects : list Effect) : bool :=
  existsb (fun e => match e with InputClick => true | _ => false end) effects.

End FileInput.

(** ** [Header.tsx] *)

Module Header.

(** The [className] of the two navigation links for the current path. *)
Definition mealsClass (path : string) : string :=
  if Str.startsWith path "/meals" then "text-orange-200" else EmptyString.

Definition communityClass (path : string) : string :=
  if Str.startsWith path "/community" then "text-orange-200" else EmptyString.

End Header.

(** ** The meal page *)

Module MealPage.

Definition newline : ascii := "010"%char.

(** [s.split('\n')]: the pieces between the line feeds, at least one. *)
Fixpoint split (s : string) : list string :=
  match s with
  | EmptyString => [EmptyString]
  | String c rest =>
      if Ascii.eqb c newline then EmptyString :: split rest
      else match split rest with
           | piece :: pieces => String c piece :: pieces
           | [] => [String c EmptyString]
           end
  end.

(** The white space and line terminators of ECMAScript among the code
    units below 256: tab, line feed, vertical tab, form feed, carriage
    return, space and no-break space. *)
Definition isWhiteSpace (c : ascii) : bool :=
  let k := N_of_ascii c in
  ((9 <=? k) && (k <=? 13) || (k =? 32) || (k =? 160))%N.

Fixpoint trimStart (s : string) : string :=
  match s with
  | EmptyString => EmptyString
  | String c rest => if isWhiteSpace c then trimStart rest else s
  end.

Fixpoint trimEnd (s : string) : string :=
  match s with
  | EmptyString => EmptyString
  | String c rest =>
      match trimEnd rest with
      | EmptyString => if isWhiteSpace c then EmptyString else String c EmptyString
      | kept => String c kept
      end
  end.

(** [String.prototype.trim]. *)
Definition trim (s : string) : string := trimEnd (trimStart s).

(** [meal.instructions.split('\n').map(i => i.trim())]. *)
Definition parsedIntructions (instructions : string) : list string :=
  map trim (split instructions).

Fixpoint countNewlines (s : string) : nat :=
  match s with
  | EmptyString => O
  | String c rest =>
      if Ascii.eqb c newline then S (countNewlines rest) else countNewlines rest
  end.

Definition firstChar (s : string) : option ascii :=
  match s with
  | EmptyString => None
  | String c _ => Some c
  end.

Fixpoint lastChar (s : string) : option ascii :=
  match s with
  | EmptyString => None
  | String c rest =>
      match lastChar rest with
      | Some d => Some d
      | None => Some c
      end
  end.

Fixpoint contains (c : ascii) (s : string) : bool :=
  match s with
  | EmptyString => false
  | String d rest => Ascii.eqb c d || contains c rest
  end.

End MealPage.

(** * Facts *)

(** ** Decimal text *)

Module NumFacts.
Import Num.

Lemma digit_cases (d : N) : (d < 10)%N -> In d [0;1;2;3;4;5;6;7;8;9]%N.
Proof.
  intros H. destruct d as [|p]; [now left|].
  do 4 (destruct p as [p|p|]; try lia; simpl; auto 12).
Qed.

Lemma digitValue_digitChar (d : N) : (d < 10)%N -> digitValue (digitChar d) = Some d.
Proof.
  intros H. apply digit_cases in H. simpl in H.
  repeat (destruct H as [<- | H]; [reflexivity|]). contradiction.
Qed.

Lemma scanDigits_digit (d : N) (s : string) (a : N) (c : nat) :
  (d < 10)%N ->
  scanDigits (String (digitChar d) s) a c = scanDigits s (10 * a + d)%N (S c).
Proof.
  intros H. cbn [scanDigits]. now rewrite digitValue_digitChar.
Qed.

Lemma decimalDigits_S (fuel : nat) (n : N) (acc_str : string) :
  decimalDigits (S fuel) n acc_str
  = if (n / 10 =? 0)%N then String (digitChar (n mod 10)) acc_str
    else decimalDigits fuel (n / 10) (String (digitChar (n mod 10)) acc_str).
Proof. reflexivity. Qed.

Lemma decimalDigits_scan :
  forall fuel n acc_str,
    (n < 2 ^ N.of_nat (S fuel))%N ->
    exists k, forall a c,
      scanDigits (decimalDigits (S fuel) n acc_str) a c
      = scanDigits acc_str (a * 10 ^ N.of_nat (S k) + n)%N (c + S k).
Proof.
  induction fuel as [|fuel IH]; intros n acc_str Hn.
  - assert (Hsmall : (n < 2)%N) by (simpl in Hn; lia).
    exists O. intros a c. rewrite decimalDigits_S.
    assert (Hq : (n / 10 = 0)%N) by (apply N.div_small; lia).
    assert (Hm : (n mod 10 = n)%N) by (apply N.mod_small; lia).
    rewrite Hq, Hm. cbn [N.eqb].
    rewrite scanDigits_digit by lia.
    change (N.of_nat 1) with 1%N. rewrite N.pow_1_r.
    f_equal; lia.
  - rewrite decimalDigits_S. destruct (N.eqb_spec (n / 10) 0) as [Hq|Hq].
    + exists O. intros a c.
      assert (Hm : (n mod 10 = n)%N).
      { apply N.mod_small. destruct (N.lt_ge_cases n 10) as [|Hge]; [assumption|].
        exfalso. assert (1 <= n / 10)%N by (apply N.div_le_lower_bound; lia). lia. }
      rewrite Hm. rewrite scanDigits_digit.
      * change (N.of_nat 1) with 1%N. rewrite N.pow_1_r.
        f_equal; lia.
      * rewrite <- Hm. apply N.mod_lt. lia.
    + destruct (IH (n / 10)%N (String (digitChar (n mod 10)) acc_str)) as [k Hk].
      { replace (N.of_nat (S (S fuel))) with (N.succ (N.of_nat (S fuel))) in Hn by lia.
        rewrite N.pow_succ_r' in Hn.
        apply N.Div0.div_lt_upper_bound. lia. }
      exists (S k). intros a c.
      rewrite (Hk a c).
      rewrite scanDigits_digit by (apply N.mod_lt; lia).
      f_equal; [ | lia].
      replace (N.of_nat (S (S k))) with (N.succ (N.of_nat (S k))) by lia.
      rewrite N.pow_succ_r'.
      pose proof (N.div_mod n 10 ltac:(lia)). lia.
Qed.

Lemma append_assoc (a b c : string) : (a ++ b) ++ c = a ++ (b ++ c).
Proof. induction a as [|x a IH]; simpl; [reflexivity | now rewrite IH]. Qed.

Lemma decimalDigits_app :
  forall fuel n acc_str,
    decimalDigits fuel n acc_str = decimalDigits fuel n EmptyString ++ acc_str.
Proof.
  induction fuel as [|fuel IH]; intros n acc_str; [reflexivity|].
  rewrite !decimalDigits_S. destruct (n / 10 =? 0)%N; [reflexivity|].
  rewrite IH, (IH _ (String _ EmptyString)).
  rewrite append_assoc. reflexivity.
Qed.

Lemma size_nat_gt (n : N) : (n < 2 ^ N.of_nat (S (N.size_nat n)))%N.
Proof.
  destruct n as [|p]; [reflexivity|].
  cbn [N.size_nat]. 
  assert (H : forall q : positive, (Pos.to_nat q < 2 ^ Pos.size_nat q)%nat).
  { induction q as [q IHq|q IHq|]; cbn [Pos.size_nat Nat.pow].
    - rewrite Pos2Nat.inj_xI. lia.
    - rewrite Pos2Nat.inj_xO. lia.
    - rewrite Pos2Nat.inj_1. lia. }
  specialize (H p).
  assert (H2 : (N.pos p < 2 ^ N.of_nat (Pos.size_nat p))%N).
  { replace (N.pos p) with (N.of_nat (Pos.to_nat p)) by lia.
    change 2%N with (N.of_nat 2). rewrite <- Nat2N.inj_pow. lia. }
  replace (N.of_nat (S (Pos.size_nat p))) with (N.succ (N.of_nat (Pos.size_nat p))) by lia.
  rewrite N.pow_succ_r'. lia.
Qed.

Lemma decimalOfN_scan (n : N) (rest : string) :
  exists k, forall a c,
    scanDigits (decimalOfN n ++ rest) a c
    = scanDigits rest (a * 10 ^ N.of_nat (S k) + n)%N (c + S k).
Proof.
  unfold decimalOfN. rewrite <- decimalDigits_app.
  apply decimalDigits_scan, size_nat_gt.
Qed.

Lemma decimalDigits_head :
  forall fuel n d0 acc_str, (d0 < 10)%N ->
    exists d s, (d < 10)%N /\
      decimalDigits fuel n (String (digitChar d0) acc_str) = String (digitChar d) s.
Proof.
  induction fuel as [|fuel IH]; intros n d0 acc_str Hd0.
  - exists d0, acc_str. split; [assumption|reflexivity].
  - rewrite decimalDigits_S. destruct (n / 10 =? 0)%N.
    + exists (n mod 10)%N, (String (digitChar d0) acc_str).
      split; [apply N.mod_lt; lia | reflexivity].
    + apply IH. apply N.mod_lt; lia.
Qed.

Lemma decimalOfN_head (n : N) :
  exists d s, (d < 10)%N /\ decimalOfN n = String (digitChar d) s.
Proof.
  unfold decimalOfN. rewrite decimalDigits_S. destruct (n / 10 =? 0)%N.
  - exists (n mod 10)%N, EmptyString. split; [apply N.mod_lt; lia | reflexivity].
  - apply decimalDigits_head. apply N.mod_lt; lia.
Qed.

Lemma parseFloat_digit_first (d : N) (s : string) :
  (d < 10)%N ->
  parseFloat (String (digitChar d) s) = parseUnsigned (String (digitChar d) s).
Proof.
  intros H. apply digit_cases in H. simpl in H.
  repeat (destruct H as [<- | H]; [reflexivity|]). contradiction.
Qed.

Lemma parseFloat_point_literal (q r : N) :
  (r < 10)%N ->
  parseFloat (decimalOfN q ++ "." ++ String (digitChar r) EmptyString)
  = Some (Qmake (Z.of_N q * 10 + Z.of_N r) 10).
Proof.
  intros Hr.
  destruct (decimalOfN_head q) as (d & s & Hd & Hs).
  assert (Hpf : parseFloat (decimalOfN q ++ "." ++ String (digitChar r) EmptyString)
                = parseUnsigned (decimalOfN q ++ "." ++ String (digitChar r) EmptyString)).
  { rewrite Hs. cbn [String.append]. now apply parseFloat_digit_first. }
  rewrite Hpf. unfold parseUnsigned.
  destruct (decimalOfN_scan q ("." ++ String (digitChar r) EmptyString)) as [k Hk].
  rewrite Hk. cbn [String.append].
  change (scanDigits (String "." (String (digitChar r) EmptyString))
                     (0 * 10 ^ N.of_nat (S k) + q)%N (0 + S k))
    with ((0 * 10 ^ N.of_nat (S k) + q)%N, (0 + S k)%nat,
          String "." (String (digitChar r) EmptyString)).
  cbn iota beta.
  rewrite scanDigits_digit by assumption.
  cbn [scanDigits plus]. cbn iota beta.
  rewrite N.mul_0_l, N.add_0_l. reflexivity.
Qed.


Lemma Qabs_nonneg_num (x : Q) : (0 <= Qnum x)%Z -> Qabs x = x.
Proof.
  destruct x as [a d]. cbn [Qnum Qabs]. intros H. now rewrite Z.abs_eq.
Qed.

Lemma tenths_nonneg (x : Q) :
  (0 <= Qnum x)%Z -> (0 <= Qfloor (x * (10 # 1) + (1 # 2)))%Z.
Proof.
  intros H. change 0%Z with (Qfloor 0). apply Qfloor_resp_le.
  destruct x as [a d]. cbn [Qnum] in H.
  unfold Qle, Qplus, Qmult. cbn [Qnum Qden]. nia.
Qed.

(** [parseFloat (x.toFixed 1)] for a receiver that is not negative. *)
Lemma parseFloat_toFixed1 (x : Q) :
  (0 <= Qnum x)%Z ->
  parseFloat (toFixed1 x) = Some (roundToTenth x).
Proof.
  intros H. unfold toFixed1.
  destruct (Z.ltb_spec (Qnum x) 0) as [Hneg|_]; [lia|].
  change (EmptyString ++ ?s) with s. rewrite Qabs_nonneg_num by assumption.
  rewrite parseFloat_point_literal by (apply N.mod_lt; lia).
  unfold roundToTenth, tenthsOf. f_equal. f_equal.
  pose proof (tenths_nonneg x H) as Hn.
  set (t := Qfloor (x * (10 # 1) + (1 # 2))) in *.
  pose proof (N.div_mod (Z.to_N t) 10 ltac:(lia)). lia.
Qed.

End NumFacts.
(** ** Size formatting *)

Example toFixed1_examples :
  Num.toFixed1 (3 # 2) = "1.5"%string /\ Num.toFixed1 (1 # 4) = "0.3"%string
  /\ Num.toFixed1 (5 # 1) = "5.0"%string.
Proof. repeat split. Qed.

Example parseFloat_examples :
  Num.parseFloat "1.5" = Some (15 # 10) /\ Num.parseFloat "5.0" = Some (50 # 10)
  /\ Num.parseFloat "MB" = None.
Proof. repeat split. Qed.

Example toString_examples :
  Num.toString (15 # 10) = "1.5"%string /\ Num.toString (50 # 10) = "5"%string
  /\ Num.decimalOfZ 1024 = "1024"%string.
Proof. repeat split. Qed.

Local Open Scope Z_scope.

(** [roundToTenth x] is the multiple of one tenth nearest to [x], the upper
    one when [x] lies halfway between two of them. *)
Lemma roundToTenth_half_up (x : Q) :
  (x - (1 # 20) < roundToTenth x)%Q /\ (roundToTenth x <= x + (1 # 20))%Q.
Proof.
  unfold roundToTenth.
  pose proof (Qfloor_le (x * (10 # 1) + (1 # 2))) as Hle.
  pose proof (Qlt_floor (x * (10 # 1) + (1 # 2))) as Hlt.
  set (t := Qfloor (x * (10 # 1) + (1 # 2))) in *. clearbody t.
  destruct x as [a d].
  unfold Qlt, Qle, Qminus, Qplus, Qopp, Qmult, inject_Z in *.
  cbn [Qnum Qden] in *.
  rewrite ?Pos2Z.inj_mul in *.
  set (D := Z.pos d) in *. assert (0 < D) by (subst D; lia).
  split; nia.
Qed.

Lemma bytesToUnit_rounds (b : Z) (u : ByteUnit) :
  0 <= b ->
  bytesToUnit b u
  = Some (roundToTenth (inject_Z b / inject_Z (match u with
                                               | MB => 2 ^ 20
                                               | GB => 2 ^ 30
                                               end))).
Proof.
  intros H. destruct u; unfold bytesToUnit;
    apply NumFacts.parseFloat_toFixed1; cbn; lia.
Qed.

(** C9. For every byte count [b], [getAppropriateUnit b] is [GB] exactly
    when [b >= 2^30] and [MB] otherwise, and [bytesToUnit b u] is [b]
    divided by [2^20] (for [MB]) or [2^30] (for [GB]) rounded to one decimal
    place; in particular the unit of 1073741823 is [MB], that of 1073741824
    is [GB], and 1572864 bytes are 1.5 MB. *)
Theorem getAppropriateUnit_bytesToUnit_spec (b : Z) :
  0 <= b ->
  (getAppropriateUnit b = GB <-> 2 ^ 30 <= b) /\
  (getAppropriateUnit b = MB <-> b < 2 ^ 30) /\
  bytesToUnit b MB = Some (roundToTenth (inject_Z b / inject_Z (2 ^ 20))) /\
  bytesToUnit b GB = Some (roundToTenth (inject_Z b / inject_Z (2 ^ 30))) /\
  getAppropriateUnit 1073741823 = MB /\
  getAppropriateUnit 1073741824 = GB /\
  bytesToUnit 1572864 MB = Some (15 # 10)%Q.
Proof.
  intros Hb. unfold getAppropriateUnit.
  change (1024 * 1024 * 1024) with (2 ^ 30).
  repeat split; try (destruct (Z.leb_spec (2 ^ 30) b); (congruence || lia)).
  - exact (bytesToUnit_rounds b MB Hb).
  - exact (bytesToUnit_rounds b GB Hb).
Qed.

(** C9 at a quarter of a mebibyte, a tie that rounds up to 0.3. *)
Lemma getAppropriateUnit_bytesToUnit_witness :
  bytesToUnit 262144 MB = Some (3 # 10)%Q
  /\ (getAppropriateUnit 262144 = MB <-> 262144 < 2 ^ 30).
Proof.
  destruct (getAppropriateUnit_bytesToUnit_spec 262144 ltac:(lia))
    as (_ & Hmb & Hval & _).
  split; [exact Hval | exact Hmb].
Defined.

(** C10. For every byte count [b], [bytesToMB b] of the input component
    and [bytesToUnit b MB] of the hook return the same value. *)
Theorem bytesToMB_bytesToUnit (b : Z) : bytesToMB b = bytesToUnit b MB.
Proof. unfold bytesToMB, bytesToUnit. reflexivity. Qed.

(** ** Strings *)

Module StrFacts.
Import Str.

Lemma startsWith_prefix (s p : string) :
  startsWith s p = true <-> exists r, s = (p ++ r)%string.
Proof.
  revert s. induction p as [|c p IH]; intros s; cbn [startsWith String.append].
  - split; [intros _; now exists s | reflexivity].
  - destruct s as [|d s].
    + split; [discriminate | intros [r Hr]; discriminate].
    + destruct (Ascii.eqb_spec c d) as [->|Hcd].
      * rewrite IH. split; intros [r Hr]; exists r; congruence.
      * split; [discriminate | intros [r Hr]; congruence].
Qed.

Lemma includes_Occurs (s key : string) :
  includes s key = true <-> Occurs key s.
Proof.
  induction s as [|c s IH].
  - cbn [includes]. split.
    + intros H. destruct (startsWith EmptyString key) eqn:E; [|discriminate].
      apply startsWith_prefix in E. destruct E as [r Hr].
      now exists EmptyString, r.
    + intros (pre & post & H).
      destruct pre; [|discriminate]. cbn [String.append] in H.
      assert (E : startsWith EmptyString key = true)
        by (apply startsWith_prefix; now exists post).
      now rewrite E.
  - cbn [includes]. destruct (startsWith (String c s) key) eqn:E.
    + split; [intros _ | reflexivity].
      apply startsWith_prefix in E. destruct E as [r Hr].
      now exists EmptyString, r.
    + rewrite IH. split.
      * intros (pre & post & H). exists (String c pre), post.
        cbn [String.append]. now rewrite H.
      * intros (pre & post & H). destruct pre as [|c' pre].
        -- cbn [String.append] in H.
           assert (startsWith (String c s) key = true)
             by (apply startsWith_prefix; now exists post).
           congruence.
        -- cbn [String.append] in H. injection H as _ H. now exists pre, post.
Qed.

Lemma Occurs_middle (a key b : string) : Occurs key (a ++ key ++ b)%string.
Proof. now exists a, b. Qed.

End StrFacts.

(** ** Effects of the building blocks *)

Local Open Scope list_scope.

Lemma world_eta (w : World) :
  mkWorld (files w) (errors w) (pendingFiles w) (pendingErrors w)
          (nextUrl w) (trace w) = w.
Proof. now destruct w. Qed.

Lemma revokePreviews_run (l : list FileWithPreview) (w : World) :
  revokePreviews l w
  = (tt, mkWorld (files w) (errors w) (pendingFiles w) (pendingErrors w)
                 (nextUrl w) (trace w ++ map RevokeObjectURL (previewUrls l))).
Proof.
  revert w. induction l as [|f l IH]; intros w.
  - cbn. now rewrite app_nil_r, world_eta.
  - cbn [revokePreviews previewUrls flat_map].
    destruct (truthyPreview f) as [url|].
    + unfold bind, revokeObjectURL, emit. rewrite IH. cbn.
      now rewrite <- app_assoc.
    + rewrite IH. reflexivity.
Qed.

Lemma rerender_run (w : World) :
  rerender w
  = (tt, mkWorld (match pendingFiles w with Some nf => nf | None => files w end)
                 (match pendingErrors w with Some es => es | None => errors w end)
                 None None (nextUrl w)
                 (trace w ++ match pendingFiles w with
                             | Some _ => map RevokeObjectURL (previewUrls (files w))
                             | None => []
                             end)).
Proof.
  unfold rerender. destruct (pendingFiles w) as [nf|] eqn:E.
  - rewrite revokePreviews_run. cbn. now rewrite E.
  - cbn. now rewrite E, app_nil_r.
Qed.

Lemma blob_url_truthy (f : FileWithPreview) (n : N) :
  truthyPreview (withPreview f ("blob:" ++ Num.decimalOfN n)%string)
  = Some ("blob:" ++ Num.decimalOfN n)%string.
Proof. reflexivity. Qed.

Section ValidationFacts.

Variable props : UseFileHandlerProps.

Lemma forEachM_validateStep (l : list File) :
  forall (v0 : Validation) (w : World),
    forEachM (validateStep props) l v0 w
    = (mkValidation (acceptedFiles v0 ++ acceptedOf props l (nextUrl w))
                    (rejectedFiles v0 ++ rejectedOf props l)
                    (errorMessages v0 ++ messagesOf props l),
       mkWorld (files w) (errors w) (pendingFiles w) (pendingErrors w)
               (nextUrl w
                + N.of_nat (List.length (previewUrls (acceptedOf props l (nextUrl w)))))%N
               (trace w ++ map CreateObjectURL
                             (previewUrls (acceptedOf props l (nextUrl w))))).
Proof.
  induction l as [|file l IH]; intros v0 w.
  - cbn. rewrite !app_nil_r, N.add_0_r, world_eta. now destruct v0.
  - cbn [forEachM]. unfold bind, validateStep.
    cbn [acceptedOf rejectedOf messagesOf flat_map].
    destruct (truthyError (validateFile props file)) as [e|].
    + unfold ret. rewrite IH. cbn [acceptedFiles rejectedFiles errorMessages].
      now rewrite <- !app_assoc.
    + destruct (Str.startsWith (type file) "image/").
      * unfold bind, createObjectURL, ret. rewrite IH.
        cbn [acceptedFiles rejectedFiles errorMessages files errors
             pendingFiles pendingErrors nextUrl trace].
        cbn [previewUrls flat_map]. rewrite blob_url_truthy.
        cbn [app length map]. rewrite <- !app_assoc. cbn [app].
        f_equal. f_equal.
        fold (previewUrls (acceptedOf props l (N.succ (nextUrl w)))).
        cbn [List.length]. lia.
      * unfold ret. rewrite IH.
        cbn [acceptedFiles rejectedFiles errorMessages].
        cbn [previewUrls flat_map truthyPreview spread preview app].
        now rewrite <- !app_assoc.
Qed.

(** [validateSelectedFiles] in closed form: it touches neither the files nor
    the queued updates, and the only events it adds are the allocations of
    the previews of the files it accepts. *)
Lemma validateSelectedFiles_run (l : list File) (w : World) :
  validateSelectedFiles props l w
  = (mkValidation (acceptedOf props l (nextUrl w)) (rejectedOf props l)
                  (messagesOf props l),
     mkWorld (files w) (errors w) (pendingFiles w) (pendingErrors w)
             (nextUrl w
              + N.of_nat (List.length (previewUrls (acceptedOf props l (nextUrl w)))))%N
             (trace w ++ map CreateObjectURL
                           (previewUrls (acceptedOf props l (nextUrl w))))).
Proof. unfold validateSelectedFiles. now rewrite forEachM_validateStep. Qed.

Lemma acceptedOf_origin (l : list File) :
  forall next f, In f (acceptedOf props l next) ->
    In (asFile f) l /\ truthyError (validateFile props (asFile f)) = None
    /\ error f = None.
Proof.
  induction l as [|file l IH]; intros next f Hin; [contradiction|].
  cbn [acceptedOf] in Hin.
  destruct (truthyError (validateFile props file)) as [e|] eqn:E.
  - destruct (IH _ _ Hin) as (H1 & H2 & H3). repeat split; auto. now right.
  - destruct (Str.startsWith (type file) "image/");
      (destruct Hin as [<-|Hin];
       [cbn; repeat split; auto
       |destruct (IH _ _ Hin) as (H1 & H2 & H3); repeat split; auto; now right]).
Qed.

Lemma rejectedOf_member (l : list File) (file : File) (e : string) :
  In file l -> truthyError (validateFile props file) = Some e ->
  In (withError (spread file) e) (rejectedOf props l) /\ In e (messagesOf props l).
Proof.
  intros Hin He. unfold rejectedOf, messagesOf. split; apply in_flat_map;
    exists file; (split; [assumption|]); rewrite He; now left.
Qed.

Lemma rejectedOf_error (l : list File) (f : FileWithPreview) :
  In f (rejectedOf props l) -> exists e, error f = Some e.
Proof.
  unfold rejectedOf. intros H. apply in_flat_map in H.
  destruct H as (file & _ & H).
  destruct (truthyError (validateFile props file)) as [e|]; [|contradiction].
  destruct H as [<-|[]]. now exists e.
Qed.

End ValidationFacts.

(** ** Validation of one candidate *)

Section ValidateFile.

Variable props : UseFileHandlerProps.

Lemma mapType_unfold (t : string) :
  mapType t
  = if Str.includes t "application" then Text
    else if Str.includes t "text" then Text
    else if Str.includes t "image" then Image
    else if Str.includes t "audio" then Audio
    else if Str.includes t "video" then Video
    else Image.
Proof. reflexivity. Qed.

(** Every message of [validateFile] is truthy, so [if (error)] rejects
    exactly the files for which it returns a message. *)
Lemma truthyError_validateFile (file : File) :
  truthyError (validateFile props file) = validateFile props file.
Proof.
  unfold validateFile.
  destruct (maxSize props <? size file); [reflexivity|].
  destruct (negb _); reflexivity.
Qed.

Lemma validateFile_oversize (file : File) :
  maxSize props < size file ->
  validateFile props file
  = Some ("The file " ++ Str.dquote ++ name file ++ Str.dquote
            ++ " exceeds the maximum size of "
            ++ Num.display (bytesToUnit (maxSize props)
                                        (getAppropriateUnit (maxSize props)))
            ++ " " ++ ByteUnit_value (getAppropriateUnit (maxSize props))
            ++ ".")%string.
Proof.
  intros H. unfold validateFile.
  destruct (Z.ltb_spec (maxSize props) (size file)); [reflexivity | lia].
Qed.

Lemma validateFile_wrong_type (file : File) :
  size file <= maxSize props ->
  FileType_value (mapType (type file)) <> acceptedType props ->
  validateFile props file
  = Some ("The file type " ++ Str.dquote ++ type file ++ Str.dquote
            ++ " is not accepted.")%string.
Proof.
  intros Hs Ht. unfold validateFile.
  destruct (Z.ltb_spec (maxSize props) (size file)); [lia|].
  destruct (String.eqb_spec (FileType_value (mapType (type file)))
                            (acceptedType props)); [contradiction|reflexivity].
Qed.

Lemma validateFile_valid (file : File) :
  validateFile props file = None ->
  size file <= maxSize props
  /\ FileType_value (mapType (type file)) = acceptedType props.
Proof.
  unfold validateFile.
  destruct (Z.ltb_spec (maxSize props) (size file)); [discriminate|].
  destruct (String.eqb_spec (FileType_value (mapType (type file)))
                            (acceptedType props)); [|discriminate].
  intros _. split; [lia | assumption].
Qed.

Lemma accepted_valid (l : list File) (next : N) (f : FileWithPreview) :
  In f (acceptedOf props l next) ->
  In (asFile f) l
  /\ size (asFile f) <= maxSize props
  /\ FileType_value (mapType (type (asFile f))) = acceptedType props
  /\ error f = None.
Proof.
  intros H. destruct (acceptedOf_origin props l next f H) as (Hin & Hv & He).
  rewrite truthyError_validateFile in Hv.
  destruct (validateFile_valid _ Hv). auto.
Qed.

End ValidateFile.

Ltac occurs_cases t :=
  rewrite (mapType_unfold t);
  destruct (Str.includes t "application") eqn:Happ;
  destruct (Str.includes t "text") eqn:Htxt;
  destruct (Str.includes t "image") eqn:Himg;
  destruct (Str.includes t "audio") eqn:Haud;
  destruct (Str.includes t "video") eqn:Hvid;
  repeat match goal with
         | H : Str.includes _ _ = true |- _ =>
             apply StrFacts.includes_Occurs in H
         | H : Str.includes ?s ?k = false |- _ =>
             assert (~ Str.Occurs k s)
               by (rewrite <- StrFacts.includes_Occurs; congruence);
             clear H
         end.

(** [mapType] by occurrence: the first of the five keys, in the order of
    [typeMap], that occurs anywhere in the mime string decides. *)
Lemma mapType_by_occurrence (t : string) :
  (mapType t = Text <-> Str.Occurs "application" t \/ Str.Occurs "text" t)
  /\ (mapType t = Audio <->
      ~ Str.Occurs "application" t /\ ~ Str.Occurs "text" t
      /\ ~ Str.Occurs "image" t /\ Str.Occurs "audio" t)
  /\ (mapType t = Video <->
      ~ Str.Occurs "application" t /\ ~ Str.Occurs "text" t
      /\ ~ Str.Occurs "image" t /\ ~ Str.Occurs "audio" t
      /\ Str.Occurs "video" t)
  /\ (mapType t = Image <->
      ~ Str.Occurs "application" t /\ ~ Str.Occurs "text" t
      /\ (Str.Occurs "image" t
          \/ ~ Str.Occurs "audio" t /\ ~ Str.Occurs "video" t)).
Proof.
  occurs_cases t; repeat split; intros; try discriminate; try tauto.
Qed.

(** C8, as amended. The category of a candidate is decided by the first of
    the keys application, text (both [Text]), image, audio, video that occurs
    anywhere in its mime string, and is [Image] when none occurs.  A
    candidate that is within the size limit and whose category differs from
    [acceptedType] is rejected with a message that states its raw mime type,
    and no accepted file has a category other than [acceptedType]. *)
Theorem mapType_occurrence_and_type_rejection
        (props : UseFileHandlerProps) (file : File)
        (batch : list File) (w : World) :
  size file <= maxSize props ->
  FileType_value (mapType (type file)) <> acceptedType props ->
  In file batch ->
  let t := type file in
  let v := fst (validateSelectedFiles props batch w) in
  let msg := ("The file type " ++ Str.dquote ++ t ++ Str.dquote
                ++ " is not accepted.")%string in
  (mapType t = Text <-> Str.Occurs "application" t \/ Str.Occurs "text" t)
  /\ (mapType t = Audio <->
      ~ Str.Occurs "application" t /\ ~ Str.Occurs "text" t
      /\ ~ Str.Occurs "image" t /\ Str.Occurs "audio" t)
  /\ (mapType t = Video <->
      ~ Str.Occurs "application" t /\ ~ Str.Occurs "text" t
      /\ ~ Str.Occurs "image" t /\ ~ Str.Occurs "audio" t
      /\ Str.Occurs "video" t)
  /\ (mapType t = Image <->
      ~ Str.Occurs "application" t /\ ~ Str.Occurs "text" t
      /\ (Str.Occurs "image" t
          \/ ~ Str.Occurs "audio" t /\ ~ Str.Occurs "video" t))
  /\ validateFile props file = Some msg
  /\ Str.Occurs t msg
  /\ In (withError (spread file) msg) (rejectedFiles v)
  /\ In msg (errorMessages v)
  /\ (forall f, In f (acceptedFiles v) ->
        FileType_value (mapType (type (asFile f))) = acceptedType props).
Proof.
  intros Hsize Htype Hin t v msg.
  destruct (mapType_by_occurrence t) as (H1 & H2 & H3 & H4).
  pose proof (validateFile_wrong_type props file Hsize Htype) as Hv.
  assert (Hrej : In (withError (spread file) msg) (rejectedFiles v)
                 /\ In msg (errorMessages v)).
  { subst v. rewrite validateSelectedFiles_run. cbn [fst rejectedFiles errorMessages].
    apply rejectedOf_member; [assumption|].
    rewrite truthyError_validateFile. exact Hv. }
  split; [exact H1|]. split; [exact H2|]. split; [exact H3|].
  split; [exact H4|]. split; [exact Hv|].
  split; [|split; [apply Hrej|split; [apply Hrej|]]].
  - exists ("The file type " ++ Str.dquote)%string,
           (Str.dquote ++ " is not accepted.")%string.
    reflexivity.
  - intros f Hf. subst v. rewrite validateSelectedFiles_run in Hf.
    cbn [fst acceptedFiles] in Hf.
    now destruct (accepted_valid props _ _ _ Hf) as (_ & _ & ? & _).
Qed.

(** C8 does not hold as stated: the mime type
    [model/vnd.parasolid.transmit.text] has an unrecognized top-level type
    and is mapped to [Text], not [Image]; and an oversize video offered to an
    image input gets the size message, which does not state its mime type. *)
Lemma category_not_from_top_level :
  ~ CategoryFromTopLevel Sample.single Sample.solid
  /\ ~ CategoryFromTopLevel Sample.single Sample.clip.
Proof.
  split.
  - intros [H _]. vm_compute in H. discriminate.
  - intros [_ H]. destruct H as (msg & Hmsg & Hocc).
    + vm_compute. discriminate.
    + apply StrFacts.includes_Occurs in Hocc.
      vm_compute in Hmsg. injection Hmsg as <-.
      vm_compute in Hocc. discriminate.
Qed.

(** The amended C8 at a text file offered to an image input. *)
Lemma mapType_occurrence_and_type_rejection_witness :
  exists msg,
    validateFile Sample.single Sample.notes = Some msg
    /\ Str.Occurs "text/plain" msg
    /\ mapType "text/plain" = Text.
Proof.
  pose proof (mapType_occurrence_and_type_rejection
                Sample.single Sample.notes [Sample.notes] mount
                ltac:(vm_compute; discriminate)
                ltac:(vm_compute; discriminate)
                ltac:(now left)) as H.
  cbv zeta in H.
  destruct H as (H1 & _ & _ & _ & Hv & Hocc & _).
  eexists. split; [exact Hv|]. split; [exact Hocc|].
  apply H1. right. now exists EmptyString, "/plain"%string.
Defined.

(** ** The handlers in closed form *)

Section HandlerFacts.

Variable props : UseFileHandlerProps.

Lemma notifyRejected_run (rejected : list FileWithPreview) (w : World) :
  notifyRejected props rejected w
  = (tt, mkWorld (files w) (errors w) (pendingFiles w) (pendingErrors w)
                 (nextUrl w) (trace w ++ rejectionEvents props rejected)).
Proof.
  unfold notifyRejected, rejectionEvents.
  destruct ((0 <? List.length rejected)%nat && onFilesRejected props).
  - reflexivity.
  - cbn. now rewrite app_nil_r, world_eta.
Qed.

Lemma getNewFiles_run (accepted : list FileWithPreview) (w : World) :
  getNewFiles props accepted w
  = (newFilesOf props (files w) accepted,
     mkWorld (files w) (errors w) (pendingFiles w) (pendingErrors w)
             (nextUrl w) (trace w ++ replacedPreviews props (files w))).
Proof.
  unfold getNewFiles, newFilesOf, replacedPreviews, bind, getFiles.
  destruct (maxFiles props =? 1).
  - rewrite revokePreviews_run. reflexivity.
  - rewrite app_nil_r, world_eta.
    destruct (maxFiles props <? _); [destruct (0 <? _)|]; reflexivity.
Qed.

Lemma handleFiles_exec (batch : list File) (w : World)
      (v : Validation) (wv : World) :
  validateSelectedFiles props batch w = (v, wv) ->
  exec (handleFiles props batch) w
  = if (0 <? List.length (acceptedFiles v))%nat then
      match newFilesOf props (files w) (acceptedFiles v) with
      | Some nf =>
          mkWorld (files w) (errors w) (Some nf) (Some (errorMessages v))
                  (nextUrl wv)
                  (trace wv ++ replacedPreviews props (files w)
                     ++ [OnFilesChanged nf]
                     ++ rejectionEvents props (rejectedFiles v))
      | None =>
          mkWorld (files w) (errors w) (pendingFiles w)
                  (Some (errorMessages v ++ [maxFilesError props]))
                  (nextUrl wv)
                  (trace wv ++ replacedPreviews props (files w)
                     ++ countRejectionEvents props (acceptedFiles v))
      end
    else
      mkWorld (files w) (errors w) (pendingFiles w) (Some (errorMessages v))
              (nextUrl wv) (trace wv ++ rejectionEvents props (rejectedFiles v)).
Proof.
  intros Hval. unfold exec, handleFiles, bind. rewrite Hval.
  rewrite validateSelectedFiles_run in Hval. injection Hval as Hv Hwv.
  unfold setErrors at 1.
  destruct (0 <? List.length (acceptedFiles v))%nat.
  - rewrite getNewFiles_run.
    cbn [files errors pendingFiles pendingErrors nextUrl trace].
    subst wv. cbn [files errors pendingFiles pendingErrors nextUrl trace].
    destruct (newFilesOf props (files w) (acceptedFiles v)) as [nf|].
    + unfold setFiles, emit. rewrite notifyRejected_run. cbn.
      now rewrite <- !app_assoc.
    + unfold setErrorsWith, countRejectionEvents. cbn.
      destruct (onFilesRejected props); cbn.
      * now rewrite <- !app_assoc.
      * now rewrite app_nil_r.
  - rewrite notifyRejected_run. subst wv. reflexivity.
Qed.

Lemma removeFile_exec (index : nat) (w : World) :
  exec (removeFile index) w
  = mkWorld (files w) (errors w) (Some (filterNotIndex index 0 (files w)))
            (pendingErrors w) (nextUrl w)
            (trace w
               ++ match nth_error (files w) index with
                  | Some f => map RevokeObjectURL (previewUrls [f])
                  | None => []
                  end
               ++ [OnFilesChanged (filterNotIndex index 0 (files w))]).
Proof.
  unfold exec, removeFile, bind, getFiles.
  destruct (nth_error (files w) index) as [f|].
  - cbn [previewUrls flat_map]. destruct (truthyPreview f) as [url|]; cbn.
    + now rewrite <- app_assoc.
    + reflexivity.
  - reflexivity.
Qed.

End HandlerFacts.

Section SelectionFacts.

Variable props : UseFileHandlerProps.

(** The validation pass of a batch only allocates previews. *)
Lemma validation_trace (batch : list File) (w : World)
      (v : Validation) (wv : World) :
  validateSelectedFiles props batch w = (v, wv) ->
  trace wv = trace w ++ map CreateObjectURL (previewUrls (acceptedFiles v))
  /\ v = mkValidation (acceptedOf props batch (nextUrl w))
                      (rejectedOf props batch) (messagesOf props batch).
Proof.
  intros H. rewrite validateSelectedFiles_run in H. injection H as <- <-.
  split; reflexivity.
Qed.

Lemma slice0_nonneg {A} (n : Z) (l : list A) :
  0 <= n -> slice0 n l = firstn (Z.to_nat n) l.
Proof.
  intros H. unfold slice0. destruct (Z.ltb_spec n 0); [lia | reflexivity].
Qed.

Lemma rerender_files (w : World) :
  files (exec rerender w)
  = match pendingFiles w with Some nf => nf | None => files w end.
Proof. unfold exec. now rewrite rerender_run. Qed.

End SelectionFacts.

(** C3. With [maxFiles = 1], a batch with at least one accepted candidate
    makes [handleFiles] revoke the previews of the files selected so far and
    replace the list by exactly the first accepted candidate, which it hands
    to [onFilesChanged]; the errors are the validation messages alone and
    [getNewFiles] never answers [null], so no count-limit rejection occurs. *)
Theorem handleFiles_replaces_single
        (props : UseFileHandlerProps) (batch : list File) (w : World)
        (v : Validation) (wv : World)
        (first : FileWithPreview) (others : list FileWithPreview) :
  maxFiles props = 1 ->
  validateSelectedFiles props batch w = (v, wv) ->
  acceptedFiles v = first :: others ->
  let w1 := exec (handleFiles props batch) w in
  pendingFiles w1 = Some [first]
  /\ files (exec rerender w1) = [first]
  /\ trace w1
     = trace w ++ map CreateObjectURL (previewUrls (acceptedFiles v))
         ++ map RevokeObjectURL (previewUrls (files w))
         ++ [OnFilesChanged [first]]
         ++ rejectionEvents props (rejectedFiles v)
  /\ pendingErrors w1 = Some (errorMessages v)
  /\ (forall accepted w', fst (getNewFiles props accepted w') <> None).
Proof.
  intros Hmax Hval Hacc w1.
  assert (Hw1 : w1 = mkWorld (files w) (errors w) (Some [first])
                       (Some (errorMessages v)) (nextUrl wv)
                       (trace wv ++ map RevokeObjectURL (previewUrls (files w))
                          ++ [OnFilesChanged [first]]
                          ++ rejectionEvents props (rejectedFiles v))).
  { subst w1. rewrite (handleFiles_exec props batch w v wv Hval).
    unfold newFilesOf, replacedPreviews. rewrite Hmax, Hacc. reflexivity. }
  destruct (validation_trace props batch w v wv Hval) as [Htr _].
  rewrite Hw1. rewrite rerender_files. cbn [pendingFiles trace pendingErrors].
  repeat split.
  - rewrite Htr. now rewrite <- app_assoc.
  - intros accepted w'. rewrite getNewFiles_run. unfold newFilesOf.
    rewrite Hmax. discriminate.
Qed.

(** C3 at a hook that holds [a] and receives [b] and [c]. *)
Lemma handleFiles_replaces_single_witness :
  files (exec rerender
              (exec (handleFiles Sample.single [Sample.b; Sample.c])
                    Sample.holdingOne))
  = [mkFileWithPreview Sample.b (Some "blob:1"%string) None].
Proof.
  pose (r := validateSelectedFiles Sample.single [Sample.b; Sample.c]
               Sample.holdingOne).
  pose proof (handleFiles_replaces_single
                Sample.single [Sample.b; Sample.c] Sample.holdingOne
                (fst r) (snd r)
                (mkFileWithPreview Sample.b (Some "blob:1"%string) None)
                [mkFileWithPreview Sample.c (Some "blob:2"%string) None]
                ltac:(reflexivity)
                ltac:(vm_compute; reflexivity)
                ltac:(vm_compute; reflexivity)) as H.
  cbv zeta in H. destruct H as (_ & H & _). exact H.
Defined.

(** C5. With [maxFiles > 1] and [0 < room < ] the number of accepted
    candidates, [handleFiles] appends exactly the first [room] accepted files
    in order, which fills the list, and calls [onFilesChanged] with the new
    list.  The remaining accepted files are dropped without a trace: the
    errors are the validation messages alone, and the only call of
    [onFilesRejected], if there is one, carries the files that failed
    validation, none of which is a dropped file. *)
Theorem handleFiles_fills_room
        (props : UseFileHandlerProps) (batch : list File) (w : World)
        (v : Validation) (wv : World) :
  1 < maxFiles props ->
  validateSelectedFiles props batch w = (v, wv) ->
  0 < maxFiles props - Z.of_nat (List.length (files w)) ->
  maxFiles props - Z.of_nat (List.length (files w))
  < Z.of_nat (List.length (acceptedFiles v)) ->
  let room := Z.to_nat (maxFiles props - Z.of_nat (List.length (files w))) in
  let kept := firstn room (acceptedFiles v) in
  let dropped := skipn room (acceptedFiles v) in
  let w1 := exec (handleFiles props batch) w in
  pendingFiles w1 = Some (files w ++ kept)
  /\ files (exec rerender w1) = files w ++ kept
  /\ Z.of_nat (List.length (files w ++ kept)) = maxFiles props
  /\ trace w1
     = trace w ++ map CreateObjectURL (previewUrls (acceptedFiles v))
         ++ [OnFilesChanged (files w ++ kept)]
         ++ rejectionEvents props (rejectedFiles v)
  /\ pendingErrors w1 = Some (errorMessages v)
  /\ dropped <> []
  /\ (forall f, In f dropped -> ~ In f (rejectedFiles v)).
Proof.
  intros Hmax Hval Hroom Hmore room kept dropped w1.
  destruct (validation_trace props batch w v wv Hval) as [Htr Hv].
  assert (Hlen : (0 <? List.length (acceptedFiles v))%nat = true)
    by (apply Nat.ltb_lt; lia).
  assert (Hnew : newFilesOf props (files w) (acceptedFiles v)
                 = Some (files w ++ kept)).
  { unfold newFilesOf.
    destruct (Z.eqb_spec (maxFiles props) 1); [lia|].
    destruct (Z.ltb_spec (maxFiles props)
                (Z.of_nat (List.length (files w))
                 + Z.of_nat (List.length (acceptedFiles v)))); [|lia].
    destruct (Z.ltb_spec 0 (maxFiles props - Z.of_nat (List.length (files w))));
      [|lia].
    now rewrite slice0_nonneg by lia. }
  assert (Hrev : replacedPreviews props (files w) = []).
  { unfold replacedPreviews. destruct (Z.eqb_spec (maxFiles props) 1); [lia|reflexivity]. }
  assert (Hw1 : w1 = mkWorld (files w) (errors w) (Some (files w ++ kept))
                       (Some (errorMessages v)) (nextUrl wv)
                       (trace wv ++ [OnFilesChanged (files w ++ kept)]
                          ++ rejectionEvents props (rejectedFiles v))).
  { subst w1. rewrite (handleFiles_exec props batch w v wv Hval).
    now rewrite Hlen, Hnew, Hrev. }
  rewrite Hw1, rerender_files. cbn [pendingFiles trace pendingErrors].
  repeat split.
  - rewrite length_app. subst kept. rewrite length_firstn. lia.
  - rewrite Htr. now rewrite <- app_assoc.
  - subst dropped. intros Hnil.
    apply (f_equal (@List.length _)) in Hnil. rewrite length_skipn in Hnil.
    cbn in Hnil. lia.
  - intros f Hd Hr. subst dropped.
    assert (Ha : In f (acceptedFiles v)).
    { rewrite <- (firstn_skipn room). apply in_or_app. now right. }
    rewrite Hv in Ha, Hr. cbn [acceptedFiles rejectedFiles] in Ha, Hr.
    destruct (accepted_valid props _ _ _ Ha) as (_ & _ & _ & He).
    destruct (rejectedOf_error props _ _ Hr) as [e He']. congruence.
Qed.

(** C5 at three slots, two of them taken, and three more images. *)
Lemma handleFiles_fills_room_witness :
  pendingFiles (exec (handleFiles Sample.triple
                        [Sample.c; Sample.d; Sample.e])
                     Sample.holdingTwo)
  = Some [mkFileWithPreview Sample.a (Some "blob:0"%string) None;
          mkFileWithPreview Sample.b (Some "blob:1"%string) None;
          mkFileWithPreview Sample.c (Some "blob:2"%string) None].
Proof.
  pose (r := validateSelectedFiles Sample.triple
               [Sample.c; Sample.d; Sample.e] Sample.holdingTwo).
  pose proof (handleFiles_fills_room
                Sample.triple [Sample.c; Sample.d; Sample.e]
                Sample.holdingTwo (fst r) (snd r)
                ltac:(reflexivity)
                ltac:(vm_compute; reflexivity)
                ltac:(vm_compute; reflexivity)
                ltac:(vm_compute; reflexivity)) as H.
  cbv zeta in H. destruct H as (H & _).
  rewrite H. vm_compute. reflexivity.
Defined.

(** C4, as amended. With [maxFiles > 1], no room left and at least one
    accepted candidate in the batch, [handleFiles] leaves the files list as
    it is, does not call [onFilesChanged], appends the generic maximum-files
    error to the validation messages of the batch and, if [onFilesRejected]
    was supplied, calls it exactly once, with exactly the accepted batch,
    each file annotated; every file of that call passed validation. *)
Theorem handleFiles_count_rejection
        (props : UseFileHandlerProps) (batch : list File) (w : World)
        (v : Validation) (wv : World) :
  1 < maxFiles props ->
  validateSelectedFiles props batch w = (v, wv) ->
  maxFiles props - Z.of_nat (List.length (files w)) <= 0 ->
  acceptedFiles v <> [] ->
  let w1 := exec (handleFiles props batch) w in
  let annotated :=
    map (fun file => withError file countError) (acceptedFiles v) in
  files w1 = files w
  /\ pendingFiles w1 = pendingFiles w
  /\ pendingErrors w1 = Some (errorMessages v ++ [maxFilesError props])
  /\ trace w1
     = trace w ++ map CreateObjectURL (previewUrls (acceptedFiles v))
         ++ (if onFilesRejected props then [OnFilesRejected annotated] else [])
  /\ (forall f, In f annotated ->
        error f = Some countError /\ validateFile props (asFile f) = None).
Proof.
  intros Hmax Hval Hroom Hacc w1 annotated.
  destruct (validation_trace props batch w v wv Hval) as [Htr Hv].
  assert (Hlen : (0 <? List.length (acceptedFiles v))%nat = true).
  { apply Nat.ltb_lt. destruct (acceptedFiles v); [contradiction | cbn; lia]. }
  assert (Hnew : newFilesOf props (files w) (acceptedFiles v) = None).
  { unfold newFilesOf.
    destruct (Z.eqb_spec (maxFiles props) 1); [lia|].
    apply Nat.ltb_lt in Hlen.
    destruct (Z.ltb_spec (maxFiles props)
                (Z.of_nat (List.length (files w))
                 + Z.of_nat (List.length (acceptedFiles v)))); [|lia].
    destruct (Z.ltb_spec 0 (maxFiles props - Z.of_nat (List.length (files w))));
      [lia | reflexivity]. }
  assert (Hrev : replacedPreviews props (files w) = []).
  { unfold replacedPreviews.
    destruct (Z.eqb_spec (maxFiles props) 1); [lia|reflexivity]. }
  assert (Hw1 : w1 = mkWorld (files w) (errors w) (pendingFiles w)
                       (Some (errorMessages v ++ [maxFilesError props]))
                       (nextUrl wv)
                       (trace wv ++ countRejectionEvents props (acceptedFiles v))).
  { subst w1. rewrite (handleFiles_exec props batch w v wv Hval).
    now rewrite Hlen, Hnew, Hrev. }
  rewrite Hw1. cbn [files pendingFiles trace pendingErrors].
  repeat split.
  - rewrite Htr. now rewrite <- app_assoc.
  - subst annotated. apply in_map_iff in H. now destruct H as (g & <- & _).
  - subst annotated. apply in_map_iff in H. destruct H as (g & <- & Hg).
    rewrite Hv in Hg. cbn [acceptedFiles] in Hg.
    destruct (acceptedOf_origin props _ _ _ Hg) as (_ & Hvalid & _).
    now rewrite truthyError_validateFile in Hvalid.
Qed.

(** The amended C4 at a full list of two and a batch of one valid and one
    oversize image. *)
Lemma handleFiles_count_rejection_witness :
  nextErrors (exec (handleFiles Sample.pair [Sample.c; Sample.huge])
                   Sample.holdingTwo)
  = messagesOf Sample.pair [Sample.c; Sample.huge]
      ++ [maxFilesError Sample.pair].
Proof.
  pose (w := Sample.holdingTwo).
  pose (r := validateSelectedFiles Sample.pair [Sample.c; Sample.huge] w).
  pose proof (handleFiles_count_rejection
                Sample.pair [Sample.c; Sample.huge] w (fst r) (snd r)
                ltac:(reflexivity)
                ltac:(vm_compute; reflexivity)
                ltac:(vm_compute; discriminate)
                ltac:(vm_compute; discriminate)) as H.
  cbv zeta in H. destruct H as (_ & _ & H & _).
  unfold nextErrors. fold w. rewrite H. vm_compute. reflexivity.
Defined.

(** C4 does not hold as stated.  On a full list, a batch of one valid
    and one oversize image leads to one call of [onFilesRejected], with the
    valid image; no call delivers the oversize one.  A batch of the oversize
    image alone appends no maximum-files error. *)
Lemma count_rejection_not_as_stated :
  ~ CountRejectionAsStated Sample.pair Sample.holdingTwo
      [Sample.c; Sample.huge]
  /\ ~ CountRejectionAsStated Sample.pair Sample.holdingTwo
         [Sample.huge].
Proof.
  split; intros H; hnf in H;
    specialize (H ltac:(reflexivity) ltac:(vm_compute; discriminate)).
  - destruct H as (_ & _ & _ & H). destruct (H eq_refl) as [_ Hcall].
    assert (Hin : In (OnFilesRejected
                        (rejectedFiles
                           (fst (validateSelectedFiles Sample.pair
                                   [Sample.c; Sample.huge]
                                   Sample.holdingTwo))))
                     (emitted (handleFiles Sample.pair [Sample.c; Sample.huge])
                              Sample.holdingTwo)).
    { apply Hcall. vm_compute. discriminate. }
    vm_compute in Hin.
    repeat (destruct Hin as [Hin|Hin]; [discriminate Hin|]). exact Hin.
  - destruct H as (_ & _ & H & _). vm_compute in H.
    repeat (destruct H as [H|H]; [discriminate H|]). exact H.
Qed.

(** ** Removal *)

Lemma filterNotIndex_beyond {A} (index : nat) (l : list A) :
  forall i, (i + List.length l <= index)%nat -> filterNotIndex index i l = l.
Proof.
  induction l as [|x l IH]; intros i H; [reflexivity|].
  cbn [filterNotIndex]. cbn [List.length] in H.
  destruct (Nat.eqb_spec i index); [lia|].
  rewrite IH by lia. reflexivity.
Qed.

Lemma filterNotIndex_length {A} (index : nat) (l : list A) :
  forall i, (List.length (filterNotIndex index i l) <= List.length l)%nat.
Proof.
  induction l as [|x l IH]; intros i; [reflexivity|].
  cbn [filterNotIndex]. destruct (Nat.eqb i index); cbn [List.length].
  - specialize (IH (S i)). lia.
  - specialize (IH (S i)). lia.
Qed.

(** C2, as amended. For every files list and every index at or beyond its
    length, [removeFile] leaves the contents of the files list as they are
    and revokes nothing, and it calls [onFilesChanged] once, with the
    unchanged list. *)
Theorem removeFile_beyond_length (w : World) (index : nat) :
  (List.length (files w) <= index)%nat ->
  let w1 := exec (removeFile index) w in
  pendingFiles w1 = Some (files w)
  /\ files (exec rerender w1) = files w
  /\ trace w1 = trace w ++ [OnFilesChanged (files w)]
  /\ errors w1 = errors w
  /\ pendingErrors w1 = pendingErrors w
  /\ nextUrl w1 = nextUrl w.
Proof.
  intros H w1. subst w1. rewrite rerender_files, removeFile_exec.
  cbn [pendingFiles trace errors pendingErrors nextUrl].
  rewrite filterNotIndex_beyond by (cbn; lia).
  assert (Hnth : nth_error (files w) index = None)
    by (apply nth_error_None; exact H).
  rewrite Hnth. repeat split.
Qed.

(** The amended C2 at index 5 of a list of one file. *)
Lemma removeFile_beyond_length_witness :
  emitted (removeFile 5) Sample.holdingOne
  = [OnFilesChanged (files Sample.holdingOne)].
Proof.
  pose proof (removeFile_beyond_length Sample.holdingOne 5
                ltac:(vm_compute; lia)) as H.
  cbv zeta in H. destruct H as (_ & _ & H & _).
  unfold emitted. rewrite H. rewrite skipn_app, skipn_all, Nat.sub_diag.
  reflexivity.
Defined.

(** C2 does not hold as stated: at index 5 of a list of one file,
    [removeFile] calls [onFilesChanged]. *)
Lemma remove_beyond_length_not_silent :
  ~ RemoveBeyondLengthSilent Sample.holdingOne 5.
Proof.
  intros H. hnf in H. specialize (H ltac:(vm_compute; lia)).
  destruct H as [_ H]. vm_compute in H. discriminate H.
Qed.

(** ** The bound on the number of files *)

Lemma exec_seq {A B} (c : M A) (k : M B) (w : World) :
  exec (bind c (fun _ => k)) w = exec k (exec c w).
Proof. unfold exec, bind. now destruct (c w). Qed.

Lemma newFilesOf_bound (props : UseFileHandlerProps)
      (fs accepted nf : list FileWithPreview) :
  Z.of_nat (List.length fs) <= maxFiles props ->
  newFilesOf props fs accepted = Some nf ->
  Z.of_nat (List.length nf) <= maxFiles props.
Proof.
  intros Hfs. unfold newFilesOf.
  destruct (Z.eqb_spec (maxFiles props) 1) as [E|E].
  - intros [= <-]. rewrite E, slice0_nonneg by lia.
    rewrite length_firstn. lia.
  - destruct (Z.ltb_spec (maxFiles props)
                (Z.of_nat (List.length fs) + Z.of_nat (List.length accepted))).
    + destruct (Z.ltb_spec 0 (maxFiles props - Z.of_nat (List.length fs)));
        [|discriminate].
      intros [= <-]. rewrite slice0_nonneg by lia.
      rewrite length_app, length_firstn. lia.
    + intros [= <-]. rewrite length_app. lia.
Qed.

Lemma dispatch_rendered (props : UseFileHandlerProps) (a : Action) (w : World) :
  Rendered (exec (dispatch props a) w).
Proof.
  destruct a; cbn [dispatch]; rewrite exec_seq; unfold exec at 1;
    rewrite rerender_run; split; reflexivity.
Qed.

Lemma dispatch_bound (props : UseFileHandlerProps) (a : Action) (w : World) :
  Rendered w ->
  Z.of_nat (List.length (files w)) <= maxFiles props ->
  (forall cf, a = AdoptCurrentFiles cf ->
              Z.of_nat (List.length cf) <= maxFiles props) ->
  Z.of_nat (List.length (files (exec (dispatch props a) w))) <= maxFiles props.
Proof.
  intros [Hpf Hpe] Hfs Hcf.
  destruct a as [batch|index|cf]; cbn [dispatch]; rewrite exec_seq, rerender_files.
  - destruct (validateSelectedFiles props batch w) as [v wv] eqn:Hval.
    rewrite (handleFiles_exec props batch w v wv Hval).
    destruct (0 <? List.length (acceptedFiles v))%nat.
    + destruct (newFilesOf props (files w) (acceptedFiles v)) as [nf|] eqn:Hnew;
        cbn [pendingFiles files].
      * exact (newFilesOf_bound props _ _ _ Hfs Hnew).
      * now rewrite Hpf.
    + cbn [pendingFiles files]. now rewrite Hpf.
  - rewrite removeFile_exec. cbn [pendingFiles].
    pose proof (filterNotIndex_length index (files w) 0). lia.
  - cbn. rewrite length_map. now apply Hcf.
Qed.

(** C6, as amended. From a hook whose files list holds at most [maxFiles]
    entries, every sequence of [handleFiles] and [removeFile] calls, and of
    adoptions of [currentFiles] sequences that themselves hold at most
    [maxFiles] entries, leads to a files list of at most [maxFiles] entries.
    (The hook adopts a supplied sequence whatever its length.) *)
Theorem files_bounded (props : UseFileHandlerProps) (actions : list Action) :
  forall w : World,
    Rendered w ->
    Z.of_nat (List.length (files w)) <= maxFiles props ->
    (forall cf, In (AdoptCurrentFiles cf) actions ->
                Z.of_nat (List.length cf) <= maxFiles props) ->
    Z.of_nat (List.length (files (exec (dispatchAll props actions) w)))
    <= maxFiles props.
Proof.
  induction actions as [|a actions IH]; intros w Hr Hfs Hcf.
  - exact Hfs.
  - cbn [dispatchAll]. rewrite exec_seq. apply IH.
    + apply dispatch_rendered.
    + apply dispatch_bound; auto.
      intros cf ->. apply Hcf. now left.
    + intros cf Hin. apply Hcf. now right.
Qed.

(** The amended C6 on a run that selects, removes, adopts and selects. *)
Lemma files_bounded_witness :
  Z.of_nat
    (List.length
       (files (exec (dispatchAll Sample.pair
                       [HandleFiles [Sample.a]; RemoveFile 0;
                        AdoptCurrentFiles [spread Sample.b];
                        HandleFiles [Sample.c; Sample.d; Sample.e]])
                    mount)))
  <= 2.
Proof.
  apply (files_bounded Sample.pair
           [HandleFiles [Sample.a]; RemoveFile 0;
            AdoptCurrentFiles [spread Sample.b];
            HandleFiles [Sample.c; Sample.d; Sample.e]] mount).
  - split; reflexivity.
  - vm_compute. discriminate.
  - intros cf Hin. cbn in Hin.
    destruct Hin as [Hin|[Hin|[Hin|[Hin|[]]]]]; try discriminate Hin.
    injection Hin as <-. vm_compute. discriminate.
Defined.

(** C6 does not hold as stated: with [maxFiles = 1], adopting a
    [currentFiles] sequence of two files leaves two files in the list. *)
Lemma adoption_exceeds_maxFiles : ~ BoundedFromMount Sample.single.
Proof.
  intros H.
  specialize (H [AdoptCurrentFiles [spread Sample.a; spread Sample.b]]).
  vm_compute in H. apply H. reflexivity.
Qed.

(** ** Oversize candidates *)

Lemma newFilesOf_members (props : UseFileHandlerProps)
      (fs accepted nf : list FileWithPreview) (f : FileWithPreview) :
  newFilesOf props fs accepted = Some nf ->
  In f nf -> In f fs \/ In f accepted.
Proof.
  assert (Hfirst : forall k, In f (firstn k accepted) -> In f accepted).
  { intros k Hin. rewrite <- (firstn_skipn k accepted).
    apply in_or_app. now left. }
  assert (Hslice : forall n, In f (slice0 n accepted) -> In f accepted).
  { intros n. unfold slice0. destruct (n <? 0); apply Hfirst. }
  unfold newFilesOf. destruct (maxFiles props =? 1).
  - intros [= <-] Hin. right. eapply Hslice, Hin.
  - destruct (maxFiles props <? _).
    + destruct (0 <? _); [|discriminate].
      intros [= <-] Hin. apply in_app_or in Hin.
      destruct Hin as [Hin|Hin]; [now left | right; eapply Hslice, Hin].
    + intros [= <-] Hin. now apply in_app_or in Hin.
Qed.

(** C7. A candidate with [size > maxSize] gets, whatever its type, the
    size message, which contains its name and [maxSize] converted by the
    unit rule; it is pushed to the rejected files with that message, and it
    never enters the files list: after the batch is handled every entry of
    the list is an old entry or an accepted one, and accepted entries are
    within the size limit. *)
Theorem oversize_rejected
        (props : UseFileHandlerProps) (batch : list File) (w : World)
        (file : File) :
  maxSize props < size file ->
  In file batch ->
  Rendered w ->
  let unit := getAppropriateUnit (maxSize props) in
  let formatted := Num.display (bytesToUnit (maxSize props) unit) in
  let v := fst (validateSelectedFiles props batch w) in
  exists msg,
    validateFile props file = Some msg
    /\ Str.Occurs (name file) msg
    /\ Str.Occurs (formatted ++ " " ++ ByteUnit_value unit)%string msg
    /\ (forall t, validateFile props (mkFile (name file) (size file) t) = Some msg)
    /\ In (withError (spread file) msg) (rejectedFiles v)
    /\ In msg (errorMessages v)
    /\ (forall f, In f (acceptedFiles v) -> size (asFile f) <= maxSize props)
    /\ (forall f, In f (files (exec (dispatch props (HandleFiles batch)) w)) ->
          In f (files w) \/ In f (acceptedFiles v)).
Proof.
  intros Hbig Hin [Hpf Hpe] unit formatted v.
  pose proof (validateFile_oversize props file Hbig) as Hv.
  eexists. split; [exact Hv|].
  split; [exists ("The file " ++ Str.dquote)%string; eexists; reflexivity|].
  split.
  { exists ("The file " ++ Str.dquote ++ name file ++ Str.dquote
              ++ " exceeds the maximum size of ")%string, "."%string.
    subst formatted unit. rewrite !NumFacts.append_assoc. reflexivity. }
  split; [intros t; exact (validateFile_oversize props (mkFile _ _ t) Hbig)|].
  subst v. rewrite validateSelectedFiles_run.
  cbn [fst rejectedFiles errorMessages acceptedFiles].
  assert (Hrej := rejectedOf_member props batch file _ Hin
                    (eq_trans (truthyError_validateFile props file) Hv)).
  split; [apply Hrej|]. split; [apply Hrej|]. split.
  - intros f Hf. now destruct (accepted_valid props _ _ _ Hf) as (_ & ? & _).
  - intros f. cbn [dispatch]. rewrite exec_seq, rerender_files.
    rewrite (handleFiles_exec props batch w _ _
               (validateSelectedFiles_run props batch w)).
    cbn [acceptedFiles].
    destruct (0 <? List.length (acceptedOf props batch (nextUrl w)))%nat.
    + destruct (newFilesOf props (files w) (acceptedOf props batch (nextUrl w)))
        as [nf|] eqn:Hnew; cbn [pendingFiles files].
      * exact (newFilesOf_members props _ _ _ f Hnew).
      * rewrite Hpf. now left.
    + cbn [pendingFiles files]. rewrite Hpf. now left.
Qed.

(** C7 at a 6 MiB image against the limit of 5 MiB. *)
Lemma oversize_rejected_witness :
  exists msg,
    validateFile Sample.single Sample.huge = Some msg
    /\ Str.Occurs "huge.png" msg
    /\ Str.Occurs "5 MB" msg.
Proof.
  destruct (oversize_rejected Sample.single [Sample.a; Sample.huge] mount
              Sample.huge
              ltac:(vm_compute; reflexivity)
              ltac:(right; left; reflexivity)
              ltac:(split; reflexivity))
    as (msg & Hv & Hname & Hsize & _).
  exists msg. split; [exact Hv|]. split; [exact Hname | exact Hsize].
Defined.

(** ** Lifetime of the preview URLs *)

(** C1, on the code. With room for two files, selecting [a] and then [b]
    leaves [a] in the files list while its preview URL has already been
    revoked, and unmounting revokes that URL a second time.  With room for
    one file, a batch of two images allocates a URL for the second image
    that is never revoked. *)
Theorem preview_revoked_twice_and_leaked :
  let selected :=
    exec (dispatchAll Sample.pair
            [HandleFiles [Sample.a]; HandleFiles [Sample.b]]) mount in
  let replaced :=
    exec (unmount)
         (exec (dispatchAll Sample.single
                  [HandleFiles [Sample.a; Sample.b]]) mount) in
  In (mkFileWithPreview Sample.a (Some "blob:0"%string) None) (files selected)
  /\ revokeCount "blob:0" (trace selected) = 1%nat
  /\ revokeCount "blob:0" (trace (exec unmount selected)) = 2%nat
  /\ In "blob:1"%string (createdUrls (trace replaced))
  /\ revokeCount "blob:1" (trace replaced) = 0%nat.
Proof.
  cbv zeta. repeat split; try (vm_compute; reflexivity).
  - left. vm_compute. reflexivity.
  - vm_compute. right. left. reflexivity.
Qed.

(** * Further properties of the code *)

(** ** [removeFile] inside the list *)

Lemma filterNotIndex_below {A} (index : nat) (l : list A) :
  forall i, (index < i)%nat -> filterNotIndex index i l = l.
Proof.
  induction l as [|x l IH]; intros i H; [reflexivity|].
  cbn [filterNotIndex]. destruct (Nat.eqb_spec i index); [lia|].
  now rewrite IH by lia.
Qed.

Lemma filterNotIndex_split {A} (l : list A) :
  forall i k, (k < List.length l)%nat ->
    filterNotIndex (i + k) i l = firstn k l ++ skipn (S k) l.
Proof.
  induction l as [|x l IH]; intros i k H; [cbn in H; lia|].
  cbn [filterNotIndex]. destruct k as [|k].
  - rewrite Nat.add_0_r, Nat.eqb_refl. cbn [firstn skipn app].
    apply filterNotIndex_below. lia.
  - destruct (Nat.eqb_spec i (i + S k)); [lia|].
    cbn [firstn skipn app]. f_equal.
    replace (i + S k)%nat with (S i + k)%nat by lia.
    apply IH. cbn in H. lia.
Qed.

(** [removeFile] at a position of the list revokes the preview of the file
    there, if it has one, and nothing else; it queues the list without that
    one entry, the others in their order, and calls [onFilesChanged] once,
    with that list. *)
Theorem removeFile_in_range (w : World) (index : nat) (f : FileWithPreview) :
  nth_error (files w) index = Some f ->
  let remaining := firstn index (files w) ++ skipn (S index) (files w) in
  let w1 := exec (removeFile index) w in
  pendingFiles w1 = Some remaining
  /\ files (exec rerender w1) = remaining
  /\ S (List.length remaining) = List.length (files w)
  /\ trace w1
     = trace w ++ match truthyPreview f with
                  | Some url => [RevokeObjectURL url]
                  | None => []
                  end ++ [OnFilesChanged remaining]
  /\ errors w1 = errors w /\ pendingErrors w1 = pendingErrors w.
Proof.
  intros Hnth remaining w1.
  assert (Hlt : (index < List.length (files w))%nat)
    by (apply nth_error_Some; congruence).
  assert (Hfilter : filterNotIndex index 0 (files w) = remaining)
    by (apply (filterNotIndex_split (files w) 0 index Hlt)).
  subst w1. rewrite rerender_files, removeFile_exec, Hnth, Hfilter.
  cbn [pendingFiles trace errors pendingErrors].
  repeat split.
  - subst remaining. rewrite length_app, length_firstn, length_skipn. lia.
  - cbn [previewUrls flat_map]. destruct (truthyPreview f); reflexivity.
Qed.

(** At the second of two selected images. *)
Lemma removeFile_in_range_witness :
  pendingFiles (exec (removeFile 1) Sample.holdingTwo)
  = Some [mkFileWithPreview Sample.a (Some "blob:0"%string) None].
Proof.
  pose proof (removeFile_in_range Sample.holdingTwo 1
                (mkFileWithPreview Sample.b (Some "blob:1"%string) None)
                ltac:(reflexivity)) as H.
  cbv zeta in H. destruct H as (H & _). exact H.
Defined.

(** ** One validation pass *)

Lemma emitted_of_trace {A} (c : M A) (w : World) (events : list Event) :
  trace (exec c w) = trace w ++ events -> emitted c w = events.
Proof.
  intros H. unfold emitted. rewrite H, skipn_app, skipn_all, Nat.sub_diag.
  reflexivity.
Qed.

Section PartitionFacts.

Variable props : UseFileHandlerProps.

Lemma acceptedOf_files (l : list File) :
  forall next, map asFile (acceptedOf props l next) = filter (passes props) l.
Proof.
  induction l as [|file l IH]; intros next; [reflexivity|].
  cbn [acceptedOf filter]. unfold passes at 1.
  rewrite truthyError_validateFile.
  destruct (validateFile props file); [apply IH|].
  destruct (Str.startsWith (type file) "image/"); cbn [map]; now rewrite IH.
Qed.

Lemma rejectedOf_files (l : list File) :
  map asFile (rejectedOf props l)
  = filter (fun file => negb (passes props file)) l
  /\ map error (rejectedOf props l) = map Some (messagesOf props l)
  /\ Forall (fun f => preview f = None) (rejectedOf props l).
Proof.
  induction l as [|file l (IH1 & IH2 & IH3)];
    [repeat split; constructor|].
  unfold rejectedOf, messagesOf in *. cbn [flat_map filter].
  unfold passes at 1. rewrite truthyError_validateFile.
  destruct (validateFile props file) as [e|]; cbn [negb app map].
  - rewrite IH1, IH2. repeat split. constructor; [reflexivity | exact IH3].
  - auto.
Qed.


End PartitionFacts.



(** ** [handleFiles], case by case *)

Lemma newFilesOf_null (props : UseFileHandlerProps)
      (fs accepted : list FileWithPreview) :
  accepted <> [] ->
  (newFilesOf props fs accepted = None
   <-> maxFiles props <> 1 /\ maxFiles props <= Z.of_nat (List.length fs)).
Proof.
  intros Hacc.
  assert (0 < Z.of_nat (List.length accepted))
    by (destruct accepted; [contradiction | cbn [List.length]; lia]).
  unfold newFilesOf.
  destruct (Z.eqb_spec (maxFiles props) 1).
  - split; [discriminate | intros [? _]; contradiction].
  - destruct (Z.ltb_spec (maxFiles props)
                (Z.of_nat (List.length fs) + Z.of_nat (List.length accepted))).
    + destruct (Z.ltb_spec 0 (maxFiles props - Z.of_nat (List.length fs))).
      * split; [discriminate | intros [_ ?]; lia].
      * split; [intros _; split; [assumption | lia] | reflexivity].
    + split; [discriminate | intros [_ ?]; lia].
Qed.

Lemma accepted_nonempty_length {A} (l : list A) :
  (0 <? List.length l)%nat = true <-> l <> [].
Proof.
  destruct l; cbn; split; intros H; try discriminate; try reflexivity.
  contradiction.
Qed.

(** The errors after a batch are the validation messages of that batch, in
    order, and nothing of what was shown before.  The maximum-files error is
    appended to them exactly when some candidate was accepted, [maxFiles] is
    not 1 and the list already holds [maxFiles] files or more; in that case
    the files list is not updated. *)
Theorem handleFiles_errors
        (props : UseFileHandlerProps) (batch : list File) (w : World) :
  let v := fst (validateSelectedFiles props batch w) in
  let w1 := exec (handleFiles props batch) w in
  let full := acceptedFiles v <> [] /\ maxFiles props <> 1
              /\ maxFiles props <= Z.of_nat (List.length (files w)) in
  (full -> nextErrors w1 = errorMessages v ++ [maxFilesError props]
           /\ pendingFiles w1 = pendingFiles w)
  /\ (~ full -> nextErrors w1 = errorMessages v).
Proof.
  cbv zeta.
  destruct (validateSelectedFiles props batch w) as [v wv] eqn:Hval.
  cbn [fst]. rewrite (handleFiles_exec props batch w v wv Hval).
  destruct (0 <? List.length (acceptedFiles v))%nat eqn:Hlen.
  - apply accepted_nonempty_length in Hlen.
    pose proof (newFilesOf_null props (files w) (acceptedFiles v) Hlen) as Hnull.
    destruct (newFilesOf props (files w) (acceptedFiles v)) as [nf|].
    + split.
      * intros (_ & H1 & H2).
        assert (Hno : Some nf = None) by (apply Hnull; auto). discriminate.
      * reflexivity.
    + split; [intros _; split; reflexivity|].
      intros Hnot. exfalso. apply Hnot.
      destruct Hnull as [Hn _]. destruct (Hn eq_refl). auto.
  - split; [|reflexivity].
    intros (Hacc & _). apply accepted_nonempty_length in Hacc. congruence.
Qed.

(** When the list has room for the whole accepted batch and [maxFiles] is
    not 1, [handleFiles] appends every accepted file, in order, calls
    [onFilesChanged] with the longer list and revokes nothing. *)
Theorem handleFiles_appends_all
        (props : UseFileHandlerProps) (batch : list File) (w : World)
        (v : Validation) (wv : World) :
  maxFiles props <> 1 ->
  validateSelectedFiles props batch w = (v, wv) ->
  acceptedFiles v <> [] ->
  Z.of_nat (List.length (files w)) + Z.of_nat (List.length (acceptedFiles v))
  <= maxFiles props ->
  let w1 := exec (handleFiles props batch) w in
  pendingFiles w1 = Some (files w ++ acceptedFiles v)
  /\ files (exec rerender w1) = files w ++ acceptedFiles v
  /\ trace w1
     = trace w ++ map CreateObjectURL (previewUrls (acceptedFiles v))
         ++ [OnFilesChanged (files w ++ acceptedFiles v)]
         ++ rejectionEvents props (rejectedFiles v)
  /\ pendingErrors w1 = Some (errorMessages v).
Proof.
  intros Hmax Hval Hacc Hroom w1.
  destruct (validation_trace props batch w v wv Hval) as [Htr _].
  apply accepted_nonempty_length in Hacc.
  assert (Hnew : newFilesOf props (files w) (acceptedFiles v)
                 = Some (files w ++ acceptedFiles v)).
  { unfold newFilesOf. destruct (Z.eqb_spec (maxFiles props) 1); [contradiction|].
    destruct (Z.ltb_spec (maxFiles props)
                (Z.of_nat (List.length (files w))
                 + Z.of_nat (List.length (acceptedFiles v)))); [lia|reflexivity]. }
  assert (Hrev : replacedPreviews props (files w) = []).
  { unfold replacedPreviews.
    destruct (Z.eqb_spec (maxFiles props) 1); [contradiction|reflexivity]. }
  subst w1. rewrite rerender_files.
  rewrite (handleFiles_exec props batch w v wv Hval), Hacc, Hnew, Hrev.
  cbn [pendingFiles trace pendingErrors app].
  repeat split. rewrite Htr. now rewrite <- app_assoc.
Qed.

(** With room for three, one image held and two more offered. *)
Lemma handleFiles_appends_all_witness :
  pendingFiles (exec (handleFiles Sample.triple [Sample.b; Sample.c])
                     Sample.holdingOne)
  = Some [mkFileWithPreview Sample.a (Some "blob:0"%string) None;
          mkFileWithPreview Sample.b (Some "blob:1"%string) None;
          mkFileWithPreview Sample.c (Some "blob:2"%string) None].
Proof.
  pose (r := validateSelectedFiles Sample.triple [Sample.b; Sample.c]
               Sample.holdingOne).
  pose proof (handleFiles_appends_all
                Sample.triple [Sample.b; Sample.c] Sample.holdingOne
                (fst r) (snd r)
                ltac:(vm_compute; discriminate)
                ltac:(vm_compute; reflexivity)
                ltac:(vm_compute; discriminate)
                ltac:(vm_compute; discriminate)) as H.
  cbv zeta in H. destruct H as (H & _).
  rewrite H. vm_compute. reflexivity.
Defined.

(** A batch without an accepted candidate (in particular an empty one)
    leaves the files list and the queued files update alone, allocates and
    revokes nothing and does not call [onFilesChanged]; it replaces the
    errors by the messages of the batch and calls [onFilesRejected], if
    supplied, once with the rejected files, unless there are none. *)
Theorem handleFiles_nothing_accepted
        (props : UseFileHandlerProps) (batch : list File) (w : World) :
  Forall (fun file => passes props file = false) batch ->
  let w1 := exec (handleFiles props batch) w in
  let rejected := rejectedOf props batch in
  files w1 = files w
  /\ pendingFiles w1 = pendingFiles w
  /\ nextUrl w1 = nextUrl w
  /\ nextErrors w1 = messagesOf props batch
  /\ List.length rejected = List.length batch
  /\ trace w1
     = trace w ++ (if onFilesRejected props
                   then match batch with
                        | [] => []
                        | _ => [OnFilesRejected rejected]
                        end
                   else []).
Proof.
  intros Hall w1 rejected.
  assert (Hacc : forall next, acceptedOf props batch next = []).
  { intros next. apply map_eq_nil with (f := asFile).
    rewrite acceptedOf_files. clear - Hall.
    induction Hall as [|file l Hf _ IH]; [reflexivity|].
    cbn [filter]. now rewrite Hf. }
  assert (Hlen : List.length rejected = List.length batch).
  { subst rejected.
    rewrite <- (length_map asFile), (proj1 (rejectedOf_files props batch)).
    clear - Hall. induction Hall as [|file l Hf _ IH]; [reflexivity|].
    cbn [filter]. rewrite Hf. cbn. now rewrite IH. }
  subst w1.
  rewrite (handleFiles_exec props batch w _ _
             (validateSelectedFiles_run props batch w)).
  cbn [acceptedFiles rejectedFiles errorMessages]. rewrite Hacc.
  cbn [List.length Nat.ltb Nat.leb previewUrls flat_map map
       files pendingFiles nextUrl trace].
  unfold nextErrors. cbn [pendingErrors].
  rewrite N.add_0_r, app_nil_r.
  repeat split; [exact Hlen|].
  unfold rejectionEvents. fold rejected. rewrite Hlen.
  destruct batch; cbn; destruct (onFilesRejected props); reflexivity.
Qed.

(** A text file and an oversize image offered to an image input. *)
Lemma handleFiles_nothing_accepted_witness :
  pendingFiles (exec (handleFiles Sample.pair [Sample.notes; Sample.huge])
                     Sample.holdingOne)
  = None.
Proof.
  pose proof (handleFiles_nothing_accepted
                Sample.pair [Sample.notes; Sample.huge] Sample.holdingOne
                ltac:(repeat constructor)) as H.
  cbv zeta in H. destruct H as (_ & H & _). exact H.
Defined.

(** ** What one call of [handleFiles] emits *)

Lemma revokedUrls_app (l1 l2 : list Event) :
  revokedUrls (l1 ++ l2) = revokedUrls l1 ++ revokedUrls l2.
Proof.
  induction l1 as [|e l1 IH]; [reflexivity|].
  destruct e; cbn; now rewrite IH.
Qed.

Lemma revokedUrls_created (urls : list string) :
  revokedUrls (map CreateObjectURL urls) = [].
Proof. induction urls; [reflexivity | assumption]. Qed.

Lemma revokedUrls_revoked (urls : list string) :
  revokedUrls (map RevokeObjectURL urls) = urls.
Proof. induction urls as [|u l IH]; [reflexivity | cbn; now rewrite IH]. Qed.

Lemma filter_callbacks_created (p : Event -> bool) (urls : list string) :
  (forall u, p (CreateObjectURL u) = false) ->
  filter p (map CreateObjectURL urls) = [].
Proof.
  intros Hp. induction urls as [|u l IH]; [reflexivity|].
  cbn. now rewrite Hp.
Qed.

Lemma filter_callbacks_revoked (p : Event -> bool) (urls : list string) :
  (forall u, p (RevokeObjectURL u) = false) ->
  filter p (map RevokeObjectURL urls) = [].
Proof.
  intros Hp. induction urls as [|u l IH]; [reflexivity|].
  cbn. now rewrite Hp.
Qed.

Lemma handleFiles_emitted
      (props : UseFileHandlerProps) (batch : list File) (w : World) :
  let v := fst (validateSelectedFiles props batch w) in
  emitted (handleFiles props batch) w
  = map CreateObjectURL (previewUrls (acceptedFiles v))
      ++ if (0 <? List.length (acceptedFiles v))%nat then
           replacedPreviews props (files w)
             ++ match newFilesOf props (files w) (acceptedFiles v) with
                | Some nf => [OnFilesChanged nf]
                               ++ rejectionEvents props (rejectedFiles v)
                | None => countRejectionEvents props (acceptedFiles v)
                end
         else rejectionEvents props (rejectedFiles v).
Proof.
  cbv zeta. apply emitted_of_trace.
  destruct (validateSelectedFiles props batch w) as [v wv] eqn:Hval.
  destruct (validation_trace props batch w v wv Hval) as [Htr _].
  rewrite (handleFiles_exec props batch w v wv Hval). cbn [fst].
  destruct (0 <? List.length (acceptedFiles v))%nat.
  - destruct (newFilesOf props (files w) (acceptedFiles v));
      cbn [trace]; rewrite Htr, <- !app_assoc; reflexivity.
  - cbn [trace]. rewrite Htr, <- !app_assoc. reflexivity.
Qed.

(** One call of [handleFiles] calls [onFilesChanged] at most once and
    [onFilesRejected] at most once, the latter never when it was not
    supplied; a list handed to [onFilesChanged] is the list queued by
    [setFiles]; and the call revokes previews only when [maxFiles] is 1 and
    a candidate was accepted, and then those of all files held so far. *)
Theorem handleFiles_calls
        (props : UseFileHandlerProps) (batch : list File) (w : World) :
  let v := fst (validateSelectedFiles props batch w) in
  let events := emitted (handleFiles props batch) w in
  let w1 := exec (handleFiles props batch) w in
  (List.length (filter isOnFilesChanged events) <= 1)%nat
  /\ (List.length (filter isOnFilesRejected events) <= 1)%nat
  /\ (onFilesRejected props = false -> filter isOnFilesRejected events = [])
  /\ (forall fs, In (OnFilesChanged fs) events -> pendingFiles w1 = Some fs)
  /\ revokedUrls events
     = if (maxFiles props =? 1) && (0 <? List.length (acceptedFiles v))%nat
       then previewUrls (files w)
       else [].
Proof.
  cbv zeta. rewrite handleFiles_emitted.
  destruct (validateSelectedFiles props batch w) as [v wv] eqn:Hval.
  cbn [fst]. rewrite (handleFiles_exec props batch w v wv Hval).
  rewrite !filter_app, revokedUrls_app, revokedUrls_created.
  rewrite !filter_callbacks_created by reflexivity.
  unfold replacedPreviews, rejectionEvents, countRejectionEvents.
  destruct (0 <? List.length (acceptedFiles v))%nat;
    [destruct (newFilesOf props (files w) (acceptedFiles v)) as [nf|]|];
    rewrite ?filter_app, ?revokedUrls_app;
    destruct (maxFiles props =? 1);
    rewrite ?filter_callbacks_revoked by reflexivity;
    rewrite ?revokedUrls_revoked;
    destruct (onFilesRejected props);
    destruct (0 <? List.length (rejectedFiles v))%nat;
    cbn [andb app filter isOnFilesChanged isOnFilesRejected List.length
         revokedUrls pendingFiles];
    rewrite ?app_nil_r;
    (split; [lia|]); (split; [lia|]);
    (split; [intros; try reflexivity; discriminate|]);
    (split; [|reflexivity]);
    intros fs Hin; repeat (apply in_app_or in Hin; destruct Hin as [Hin|Hin]);
    try (apply in_map_iff in Hin; destruct Hin as (? & Hin & _));
    try discriminate Hin;
    cbn [In] in Hin;
    repeat (destruct Hin as [Hin|Hin]); try discriminate Hin;
    try contradiction; try (injection Hin as <-; reflexivity).
Qed.

(** ** Adoption of [currentFiles] and teardown *)




Lemma previewUrls_member (fs : list FileWithPreview) (url : string) :
  In url (previewUrls fs)
  <-> exists f, In f fs /\ preview f = Some url /\ url <> EmptyString.
Proof.
  unfold previewUrls. rewrite in_flat_map. split.
  - intros (f & Hf & Hin). exists f. split; [assumption|].
    unfold truthyPreview in Hin. destruct (preview f) as [u|]; [|contradiction].
    destruct u as [|c u]; cbn in Hin; [contradiction|].
    destruct Hin as [<-|[]]. split; [reflexivity | discriminate].
  - intros (f & Hf & Hp & Hne). exists f. split; [assumption|].
    unfold truthyPreview. rewrite Hp.
    destruct url; [contradiction | now left].
Qed.

(** Unmounting (the cleanup of the last effect on [files]) calls
    [URL.revokeObjectURL] once for each file of the current list whose
    preview is a non-empty string, in list order, and for nothing else; it
    calls no callback and leaves the state as it is. *)
Theorem unmount_revokes_current_previews (w : World) :
  let w1 := exec unmount w in
  trace w1 = trace w ++ map RevokeObjectURL (previewUrls (files w))
  /\ (forall url, In url (revokedUrls (emitted unmount w))
        <-> exists f, In f (files w) /\ preview f = Some url
                      /\ url <> EmptyString)
  /\ (List.length (revokedUrls (emitted unmount w))
      <= List.length (files w))%nat
  /\ files w1 = files w /\ errors w1 = errors w
  /\ pendingFiles w1 = pendingFiles w /\ pendingErrors w1 = pendingErrors w.
Proof.
  cbv zeta.
  assert (Hrun : exec unmount w
                 = mkWorld (files w) (errors w) (pendingFiles w)
                           (pendingErrors w) (nextUrl w)
                           (trace w ++ map RevokeObjectURL
                                         (previewUrls (files w)))).
  { unfold exec, unmount, bind, getFiles. now rewrite revokePreviews_run. }
  rewrite (emitted_of_trace unmount w
             (map RevokeObjectURL (previewUrls (files w))))
    by (now rewrite Hrun).
  rewrite Hrun, revokedUrls_revoked.
  cbn [trace files errors pendingFiles pendingErrors].
  repeat split; try apply previewUrls_member.
  clear. induction (files w) as [|f l IH]; [reflexivity|].
  cbn [previewUrls flat_map]. rewrite length_app.
  fold (previewUrls l). destruct (truthyPreview f); cbn [List.length]; lia.
Qed.

(** ** Invariants of the list *)

Lemma filterNotIndex_subset {A} (index : nat) (l : list A) (x : A) :
  forall i, In x (filterNotIndex index i l) -> In x l.
Proof.
  induction l as [|y l IH]; intros i H; [contradiction|].
  cbn [filterNotIndex] in H. destruct (Nat.eqb i index).
  - right. exact (IH _ H).
  - destruct H as [<-|H]; [now left | right; exact (IH _ H)].
Qed.




(** Selecting one valid file into a list with room (and [maxFiles] not 1)
    and then removing the last position gives back the list as it was. *)
Theorem handleFiles_then_removeFile
        (props : UseFileHandlerProps) (file : File) (w : World) :
  Rendered w ->
  maxFiles props <> 1 ->
  passes props file = true ->
  Z.of_nat (List.length (files w)) + 1 <= maxFiles props ->
  files (exec (dispatchAll props
                 [HandleFiles [file]; RemoveFile (List.length (files w))])
              w)
  = files w.
Proof.
  intros [Hpf Hpe] Hmax Hpass Hroom.
  cbn [dispatchAll dispatch]. rewrite !exec_seq.
  unfold ret at 1. unfold exec at 1. cbn [snd].
  set (w1 := exec (handleFiles props [file]) w).
  assert (Hacc : exists entry, acceptedOf props [file] (nextUrl w) = [entry]).
  { cbn [acceptedOf]. rewrite truthyError_validateFile.
    unfold passes in Hpass. destruct (validateFile props file); [discriminate|].
    destruct (Str.startsWith (type file) "image/"); eexists; reflexivity. }
  destruct Hacc as [entry Hentry].
  assert (Hw1 : pendingFiles w1 = Some (files w ++ [entry])).
  { subst w1.
    rewrite (handleFiles_exec props [file] w _ _
               (validateSelectedFiles_run props [file] w)).
    cbn [acceptedFiles]. rewrite Hentry. cbn [List.length Nat.ltb Nat.leb].
    unfold newFilesOf.
    destruct (Z.eqb_spec (maxFiles props) 1); [contradiction|].
    cbn [List.length].
    destruct (Z.ltb_spec (maxFiles props)
                (Z.of_nat (List.length (files w)) + Z.of_nat 1)); [lia|].
    reflexivity. }
  assert (Hfiles : files (exec rerender w1) = files w ++ [entry])
    by (now rewrite rerender_files, Hw1).
  rewrite rerender_files, removeFile_exec. cbn [pendingFiles].
  rewrite Hfiles.
  pose proof (filterNotIndex_split (files w ++ [entry]) 0
                (List.length (files w))
                ltac:(rewrite length_app; cbn; lia)) as Hsplit.
  cbn [Nat.add] in Hsplit. rewrite Hsplit.
  rewrite firstn_app, Nat.sub_diag, firstn_all. cbn [firstn].
  rewrite skipn_app, skipn_all2 by lia.
  replace (S (List.length (files w)) - List.length (files w))%nat with 1%nat by lia.
  cbn [skipn app]. now rewrite !app_nil_r.
Qed.

(** Adding [b] to a list that holds [a], with room for three. *)
Lemma handleFiles_then_removeFile_witness :
  files (exec (dispatchAll Sample.triple
                 [HandleFiles [Sample.b];
                  RemoveFile (List.length (files Sample.holdingOne))])
              Sample.holdingOne)
  = files Sample.holdingOne.
Proof.
  apply (handleFiles_then_removeFile Sample.triple Sample.b Sample.holdingOne).
  - split; reflexivity.
  - vm_compute. discriminate.
  - reflexivity.
  - vm_compute. discriminate.
Defined.

(** ** More on the size formatter *)

Lemma tenths_bounds (b : Z) (D : positive) :
  let t := Qfloor (inject_Z b / inject_Z (Zpos D) * (10 # 1) + (1 # 2)) in
  2 * Zpos D * t <= 20 * b + Zpos D < 2 * Zpos D * (t + 1).
Proof.
  cbv zeta.
  pose proof (Qfloor_le (inject_Z b / inject_Z (Zpos D) * (10 # 1) + (1 # 2)))
    as Hle.
  pose proof (Qlt_floor (inject_Z b / inject_Z (Zpos D) * (10 # 1) + (1 # 2)))
    as Hlt.
  set (t := Qfloor _) in *. clearbody t.
  unfold Qlt, Qle, Qdiv, Qplus, Qmult, Qinv, inject_Z in *.
  cbn [Qnum Qden] in *. rewrite ?Pos2Z.inj_mul in *.
  set (d := Zpos D) in *. assert (0 < d) by (subst d; lia). nia.
Qed.

Lemma bytesToUnit_tenths (b : Z) (u : ByteUnit) :
  0 <= b ->
  exists t, bytesToUnit b u = Some (t # 10)%Q
            /\ let D := match u with MB => 2 ^ 20 | GB => 2 ^ 30 end in
               2 * D * t <= 20 * b + D < 2 * D * (t + 1).
Proof.
  intros Hb. rewrite bytesToUnit_rounds by assumption. unfold roundToTenth.
  eexists. split; [reflexivity|].
  destruct u.
  - exact (tenths_bounds b (2 ^ 20)%positive).
  - exact (tenths_bounds b (2 ^ 30)%positive).
Qed.

(** [bytesToUnit] never inverts an order: of two byte counts the larger one
    is never shown as the smaller number, and no count is shown as a
    negative number. *)
Theorem bytesToUnit_monotone (b1 b2 : Z) (u : ByteUnit) :
  0 <= b1 -> b1 <= b2 ->
  exists r1 r2,
    bytesToUnit b1 u = Some r1 /\ bytesToUnit b2 u = Some r2
    /\ (0 <= r1)%Q /\ (r1 <= r2)%Q.
Proof.
  intros H1 H12.
  destruct (bytesToUnit_tenths b1 u H1) as (t1 & E1 & B1).
  destruct (bytesToUnit_tenths b2 u ltac:(lia)) as (t2 & E2 & B2).
  exists (t1 # 10)%Q, (t2 # 10)%Q. split; [exact E1|]. split; [exact E2|].
  cbv zeta in B1, B2. unfold Qle. cbn [Qnum Qden].
  set (D := match u with MB => 2 ^ 20 | GB => 2 ^ 30 end) in *.
  assert (0 < D) by (subst D; destruct u; lia).
  split; nia.
Qed.

(** One and a half and two mebibytes. *)
Lemma bytesToUnit_monotone_witness :
  exists r1 r2,
    bytesToUnit 1572864 MB = Some r1 /\ bytesToUnit 2097152 MB = Some r2
    /\ (0 <= r1)%Q /\ (r1 <= r2)%Q.
Proof.
  apply (bytesToUnit_monotone 1572864 2097152 MB); lia.
Defined.

Lemma bytesToMB_MB_tenths (b : Z) : bytesToMB b = bytesToUnit b MB.
Proof. reflexivity. Qed.

(** In the rows of the input component every file of fewer than 52429 bytes
    (a twentieth of a mebibyte) is shown with the size 0, and every larger
    file with a size of at least 0.1. *)
Theorem bytesToMB_zero_threshold (b : Z) :
  0 <= b ->
  (b < 52429 ->
   bytesToMB b = Some (0 # 10)%Q /\ Num.display (bytesToMB b) = "0"%string)
  /\ (52429 <= b -> exists t, 1 <= t /\ bytesToMB b = Some (t # 10)%Q).
Proof.
  intros Hb. rewrite bytesToMB_MB_tenths.
  destruct (bytesToUnit_tenths b MB Hb) as (t & E & B). cbv zeta in B.
  rewrite E. split.
  - intros Hsmall. assert (t = 0) by lia. subst t. split; reflexivity.
  - intros Hbig. exists t. split; [lia | reflexivity].
Qed.

(** A file of fifty kibibytes. *)
Lemma bytesToMB_zero_threshold_witness :
  Num.display (bytesToMB 51200) = "0"%string.
Proof.
  destruct (bytesToMB_zero_threshold 51200 ltac:(lia)) as [H _].
  exact (proj2 (H ltac:(lia))).
Defined.

(** ** [firstNChars] *)

Module FileInputFacts.
Import FileInput.

Lemma length_append (a b : string) :
  String.length (a ++ b) = (String.length a + String.length b)%nat.
Proof. induction a as [|c a IH]; cbn; [reflexivity | now rewrite IH]. Qed.

Lemma take_length (k : nat) (s : string) :
  String.length (take k s) = Nat.min k (String.length s).
Proof.
  revert s. induction k as [|k IH]; intros s; [reflexivity|].
  destruct s as [|c s]; cbn; [reflexivity | now rewrite IH].
Qed.

Lemma take_all (k : nat) (s : string) :
  (String.length s <= k)%nat -> take k s = s.
Proof.
  revert s. induction k as [|k IH]; intros s H.
  - destruct s; [reflexivity | cbn in H; lia].
  - destruct s as [|c s]; [reflexivity|]. cbn in *. rewrite IH by lia.
    reflexivity.
Qed.

Lemma take_append (k : nat) (s t : string) :
  (k <= String.length s)%nat -> take k (take k s ++ t) = take k s.
Proof.
  revert s. induction k as [|k IH]; intros s H; [reflexivity|].
  destruct s as [|c s]; [cbn in H; lia|].
  cbn in *. rewrite IH by lia. reflexivity.
Qed.

End FileInputFacts.

(** For a limit [n >= 0], [firstNChars] returns a string of at most
    [n + 3] characters that agrees with its argument on the first [n]
    characters: the argument itself when it has at most [n] characters, and
    otherwise its first [n] characters followed by the ellipsis, if asked
    for.  A missing argument gives the empty string. *)
Theorem firstNChars_bounded (s : string) (n : Z) (ellipsis : bool) :
  0 <= n ->
  let r := FileInput.firstNChars (Some s) n ellipsis in
  Z.of_nat (String.length r) <= n + 3
  /\ FileInput.take (Z.to_nat n) r = FileInput.take (Z.to_nat n) s
  /\ (Z.of_nat (String.length s) <= n -> r = s)
  /\ (n < Z.of_nat (String.length s) ->
      r = (FileInput.take (Z.to_nat n) s
             ++ (if ellipsis then "..." else EmptyString))%string)
  /\ FileInput.firstNChars None n ellipsis = EmptyString.
Proof.
  intros Hn r. subst r. unfold FileInput.firstNChars, FileInput.substring0.
  destruct s as [|c s];
    [cbn; repeat split; intros; try reflexivity; try (cbn in *; lia)|].
  cbn [Str.truthy negb].
  destruct (Z.leb_spec (Z.of_nat (String.length (String c s))) n) as [Hle|Hgt].
  - repeat split; intros; try reflexivity; lia.
  - assert (Hk : (Z.to_nat n <= String.length (String c s))%nat) by lia.
    split; [|split; [|split; [|split]]].
    + rewrite FileInputFacts.length_append, FileInputFacts.take_length.
      destruct ellipsis; cbn [String.length]; lia.
    + apply FileInputFacts.take_append. exact Hk.
    + intros H. lia.
    + reflexivity.
    + reflexivity.
Qed.

(** The limit of the file rows, on a name of forty-four characters. *)
Lemma firstNChars_bounded_witness :
  Z.of_nat
    (String.length
       (FileInput.firstNChars
          (Some "a-file-name-that-is-far-too-long-to-show.png"%string) 40 true))
  <= 43.
Proof.
  destruct (firstNChars_bounded
              "a-file-name-that-is-far-too-long-to-show.png" 40 true
              ltac:(lia)) as (H & _).
  exact H.
Defined.

(** Shortening a name that was already shortened with the same limit
    changes nothing. *)
Theorem firstNChars_idempotent (s : string) (n : Z) (ellipsis : bool) :
  FileInput.firstNChars
    (Some (FileInput.firstNChars (Some s) n ellipsis)) n ellipsis
  = FileInput.firstNChars (Some s) n ellipsis.
Proof.
  assert (Hstep : forall r,
             FileInput.firstNChars (Some r) n ellipsis
             = match r with
               | EmptyString => EmptyString
               | _ => if Z.of_nat (String.length r) <=? n then r
                      else (FileInput.take (Z.to_nat n) r
                              ++ (if ellipsis then "..." else EmptyString))%string
               end)
    by (intros [|d u]; reflexivity).
  rewrite (Hstep s). destruct s as [|c s]; [reflexivity|].
  destruct (Z.leb_spec (Z.of_nat (String.length (String c s))) n) as [Hle|Hgt].
  - rewrite Hstep.
    destruct (Z.leb_spec (Z.of_nat (String.length (String c s))) n);
      [reflexivity | lia].
  - set (t := String c s) in *. set (k := Z.to_nat n).
    set (tail := if ellipsis then "..." else EmptyString).
    rewrite Hstep. fold k tail.
    destruct (FileInput.take k t ++ tail)%string as [|d u] eqn:E;
      [reflexivity|].
    rewrite <- E.
    destruct (Z.of_nat (String.length (FileInput.take k t ++ tail)) <=? n);
      [reflexivity|].
    rewrite FileInputFacts.take_append by lia. reflexivity.
Qed.

(** ** The input component: dialog, rows and remove buttons *)


Lemma isCoverImage_nonempty (p : FileInput.Props) (fs : list FileWithPreview) :
  FileInput.isCoverImage p fs = true -> fs <> [].
Proof.
  unfold FileInput.isCoverImage. destruct fs; [|discriminate].
  cbn. rewrite andb_false_r. discriminate.
Qed.










Lemma removal_files (props : UseFileHandlerProps) (index : nat) (w : World) :
  files (exec (dispatchAll props [RemoveFile index]) w)
  = filterNotIndex index 0 (files w).
Proof.
  cbn [dispatchAll dispatch]. rewrite !exec_seq.
  unfold ret at 1. unfold exec at 1. cbn [snd].
  now rewrite rerender_files, removeFile_exec.
Qed.

(** In [part_004] the remove button of the row at position [i] stops the
    click from reaching the surrounding area, opens no dialog, and removes
    exactly the file shown in that row: the list that results is the old
    one without position [i]. *)
Theorem removeClick_removes_its_row
        (p : FileInput.Props) (w : World) (i : nat) (f : FileWithPreview) :
  nth_error (files w) i = Some f ->
  FileInput.removeClick i
  = [FileInput.StopPropagation; FileInput.Hook (RemoveFile i)]
  /\ FileInput.opensDialog (FileInput.removeClick i) = false
  /\ files (exec (dispatchAll (FileInput.hookProps p)
                    (FileInput.hookActions (FileInput.removeClick i))) w)
     = firstn i (files w) ++ skipn (S i) (files w).
Proof.
  intros Hnth. split; [reflexivity|]. split; [reflexivity|].
  cbn [FileInput.removeClick FileInput.hookActions flat_map app].
  rewrite removal_files.
  apply (filterNotIndex_split (files w) 0 i).
  apply nth_error_Some. congruence.
Qed.

(** The button of the second row of two. *)
Lemma removeClick_removes_its_row_witness :
  files (exec (dispatchAll Sample.pair
                 (FileInput.hookActions (FileInput.removeClick 1)))
              Sample.holdingTwo)
  = [mkFileWithPreview Sample.a (Some "blob:0"%string) None].
Proof.
  destruct (removeClick_removes_its_row
              (FileInput.mkInputProps false Image 2 Sample.fiveMiB
                                      FileInput.Default false true)
              Sample.holdingTwo 1
              (mkFileWithPreview Sample.b (Some "blob:1"%string) None)
              ltac:(reflexivity))
    as (_ & _ & H).
  exact H.
Defined.

(** In [part_003] the remove button of every row passes the constant [0]:
    whichever row is clicked, the first file of the list is removed and all
    the others, the file of the clicked row included when it is not the
    first, stay. *)
Theorem removeClick_v1_removes_first
        (p : FileInput.Props) (w : World) (i : nat)
        (f : FileWithPreview) (rest : list FileWithPreview) :
  files w = f :: rest ->
  files (exec (dispatchAll (FileInput.hookProps p)
                 (FileInput.hookActions (FileInput.removeClick_v1 i))) w)
  = rest.
Proof.
  intros Hfs.
  cbn [FileInput.removeClick_v1 FileInput.hookActions flat_map app].
  rewrite removal_files, Hfs. cbn [filterNotIndex Nat.eqb].
  apply filterNotIndex_below. lia.
Qed.

(** The button of the second row of two, in the earlier component. *)
Lemma removeClick_v1_removes_first_witness :
  files (exec (dispatchAll Sample.pair
                 (FileInput.hookActions (FileInput.removeClick_v1 1)))
              Sample.holdingTwo)
  = [mkFileWithPreview Sample.b (Some "blob:1"%string) None].
Proof.
  exact (removeClick_v1_removes_first
           (FileInput.mkInputProps false Image 2 Sample.fiveMiB
                                   FileInput.Default false true)
           Sample.holdingTwo 1
           (mkFileWithPreview Sample.a (Some "blob:0"%string) None)
           [mkFileWithPreview Sample.b (Some "blob:1"%string) None]
           ltac:(reflexivity)).
Defined.

(** ** The header *)

(** The Meals link is highlighted exactly on the paths that start with
    [/meals] (so also on [/meals/share], and on [/mealsplan]), the Community
    link exactly on those that start with [/community], and on no path are
    both highlighted. *)
Theorem header_highlights_by_prefix (path : string) :
  (Header.mealsClass path = "text-orange-200"%string
   <-> exists rest, path = ("/meals" ++ rest)%string)
  /\ (Header.communityClass path = "text-orange-200"%string
      <-> exists rest, path = ("/community" ++ rest)%string)
  /\ ~ (Header.mealsClass path = "text-orange-200"%string
        /\ Header.communityClass path = "text-orange-200"%string).
Proof.
  unfold Header.mealsClass, Header.communityClass.
  pose proof (StrFacts.startsWith_prefix path "/meals") as Hm.
  pose proof (StrFacts.startsWith_prefix path "/community") as Hc.
  destruct (Str.startsWith path "/meals") eqn:Em;
    destruct (Str.startsWith path "/community") eqn:Ec.
  - exfalso. destruct (proj1 Hm eq_refl) as [r1 H1].
    destruct (proj1 Hc eq_refl) as [r2 H2]. rewrite H1 in H2. discriminate.
  - split; [tauto|]. split; [|intros [_ H]; discriminate].
    split; [discriminate|]. intros H. apply Hc in H. discriminate.
  - split; [|split; [tauto | intros [H _]; discriminate]].
    split; [discriminate|]. intros H. apply Hm in H. discriminate.
  - split; [|split; [|intros [H _]; discriminate]].
    + split; [discriminate|]. intros H. apply Hm in H. discriminate.
    + split; [discriminate|]. intros H. apply Hc in H. discriminate.
Qed.

(** ** The instructions of a meal *)

Module MealPageFacts.
Import MealPage.

Lemma split_nonempty (s : string) : split s <> [].
Proof.
  induction s as [|c s IH]; cbn; [discriminate|].
  destruct (Ascii.eqb c newline); [discriminate|].
  destruct (split s); [contradiction | discriminate].
Qed.

Lemma split_length (s : string) :
  List.length (split s) = S (countNewlines s).
Proof.
  induction s as [|c s IH]; [reflexivity|]. cbn.
  destruct (Ascii.eqb c newline); cbn; [now rewrite IH|].
  pose proof (split_nonempty s).
  destruct (split s); [contradiction | exact IH].
Qed.

Lemma split_no_newline (s : string) :
  Forall (fun piece => contains newline piece = false) (split s).
Proof.
  induction s as [|c s IH]; cbn; [repeat constructor|].
  destruct (Ascii.eqb c newline) eqn:E; [constructor; [reflexivity|exact IH]|].
  pose proof (split_nonempty s).
  destruct (split s) as [|piece pieces]; [contradiction|].
  inversion IH as [|? ? Hp Hrest]; subst. constructor; [|exact Hrest].
  cbn [contains]. rewrite Ascii.eqb_sym, E. exact Hp.
Qed.

Lemma trimStart_contains (c : ascii) (s : string) :
  contains c (trimStart s) = true -> contains c s = true.
Proof.
  induction s as [|d s IH]; cbn; [auto|].
  destruct (isWhiteSpace d); [|auto].
  intros H. rewrite (IH H). apply orb_true_r.
Qed.

Lemma trimEnd_contains (c : ascii) (s : string) :
  contains c (trimEnd s) = true -> contains c s = true.
Proof.
  induction s as [|d s IH]; cbn; [auto|].
  destruct (trimEnd s) as [|e kept].
  - destruct (isWhiteSpace d); cbn; [discriminate|].
    rewrite orb_false_r. intros ->. reflexivity.
  - cbn [contains] in *. intros H. apply orb_prop in H.
    destruct H as [->|H]; [reflexivity|]. rewrite (IH H). apply orb_true_r.
Qed.

Lemma trimStart_first (s : string) (c : ascii) :
  firstChar (trimStart s) = Some c -> isWhiteSpace c = false.
Proof.
  induction s as [|d s IH]; cbn; [discriminate|].
  destruct (isWhiteSpace d) eqn:E; [exact IH|].
  cbn. intros [= <-]. exact E.
Qed.

Lemma trimEnd_first (s : string) (c : ascii) :
  firstChar (trimEnd s) = Some c -> firstChar s = Some c.
Proof.
  destruct s as [|d s]; cbn; [auto|].
  destruct (trimEnd s); [destruct (isWhiteSpace d); cbn; [discriminate|auto]|auto].
Qed.

Lemma trimEnd_last (s : string) (c : ascii) :
  lastChar (trimEnd s) = Some c -> isWhiteSpace c = false.
Proof.
  induction s as [|d s IH]; cbn; [discriminate|].
  destruct (trimEnd s) as [|e kept] eqn:E.
  - destruct (isWhiteSpace d) eqn:Ed; cbn; [discriminate|].
    intros [= <-]. exact Ed.
  - assert (Hlast : lastChar (String d (String e kept))
                    = lastChar (String e kept))
      by (cbn; destruct (lastChar kept); reflexivity).
    rewrite Hlast. exact IH.
Qed.

End MealPageFacts.

(** The instructions of a meal are shown as one item per line: one more
    item than there are line feeds in the text (a single empty item for an
    empty text), none of which contains a line feed or begins or ends with
    white space. *)
Theorem parsedIntructions_lines (instructions : string) :
  List.length (MealPage.parsedIntructions instructions)
  = S (MealPage.countNewlines instructions)
  /\ Forall (fun item =>
               MealPage.contains MealPage.newline item = false
               /\ (forall c, MealPage.firstChar item = Some c ->
                             MealPage.isWhiteSpace c = false)
               /\ (forall c, MealPage.lastChar item = Some c ->
                             MealPage.isWhiteSpace c = false))
            (MealPage.parsedIntructions instructions)
  /\ MealPage.parsedIntructions EmptyString = [EmptyString].
Proof.
  unfold MealPage.parsedIntructions. split; [|split; [|reflexivity]].
  - rewrite length_map. apply MealPageFacts.split_length.
  - apply Forall_map.
    eapply Forall_impl; [|apply MealPageFacts.split_no_newline].
    intros piece Hpiece. unfold MealPage.trim. split; [|split].
    + destruct (MealPage.contains MealPage.newline
                  (MealPage.trimEnd (MealPage.trimStart piece))) eqn:E;
        [|reflexivity].
      apply MealPageFacts.trimEnd_contains, MealPageFacts.trimStart_contains in E.
      congruence.
    + intros c H. apply MealPageFacts.trimEnd_first in H.
      exact (MealPageFacts.trimStart_first piece c H).
    + intros c. apply MealPageFacts.trimEnd_last.
Qed.

(** ** The keys of the rows *)

Module KeyFacts.
Import Num.

Lemma contains_append (c : ascii) (a b : string) :
  MealPage.contains c (a ++ b)
  = MealPage.contains c a || MealPage.contains c b.
Proof.
  induction a as [|d a IH]; [reflexivity|].
  cbn. now rewrite IH, orb_assoc.
Qed.

Lemma digitChar_not_dash (d : N) : (d < 10)%N -> Ascii.eqb FileInput.dash (digitChar d) = false.
Proof.
  intros H. apply NumFacts.digit_cases in H. simpl in H.
  repeat (destruct H as [<- | H]; [reflexivity|]). contradiction.
Qed.

Lemma decimalDigits_no_dash :
  forall fuel n acc_str,
    MealPage.contains FileInput.dash acc_str = false ->
    MealPage.contains FileInput.dash (decimalDigits fuel n acc_str) = false.
Proof.
  induction fuel as [|fuel IH]; intros n acc_str Hacc; [exact Hacc|].
  rewrite NumFacts.decimalDigits_S.
  assert (Hnext : MealPage.contains FileInput.dash
                    (String (digitChar (n mod 10)) acc_str) = false).
  { cbn [MealPage.contains].
    rewrite digitChar_not_dash by (apply N.mod_lt; lia). exact Hacc. }
  destruct (n / 10 =? 0)%N; [exact Hnext | now apply IH].
Qed.

Lemma decimalOfN_no_dash (n : N) :
  MealPage.contains FileInput.dash (decimalOfN n) = false.
Proof. apply decimalDigits_no_dash. reflexivity. Qed.

Lemma append_empty (s : string) : (s ++ EmptyString)%string = s.
Proof. induction s as [|c s IH]; cbn; [reflexivity | now rewrite IH]. Qed.

Lemma decimalOfN_inj (n m : N) : decimalOfN n = decimalOfN m -> n = m.
Proof.
  intros H.
  destruct (NumFacts.decimalOfN_scan n EmptyString) as [k Hk].
  destruct (NumFacts.decimalOfN_scan m EmptyString) as [j Hj].
  specialize (Hk 0%N O). specialize (Hj 0%N O).
  rewrite append_empty in Hk, Hj. rewrite H in Hk. rewrite Hk in Hj.
  cbn [scanDigits] in Hj. injection Hj as Hv _. lia.
Qed.

(** The text after the last hyphen of a key is determined by the key. *)
Lemma key_suffix_unique (a b d1 d2 : string) :
  (a ++ "-" ++ d1)%string = (b ++ "-" ++ d2)%string ->
  MealPage.contains FileInput.dash d1 = false ->
  MealPage.contains FileInput.dash d2 = false ->
  d1 = d2.
Proof.
  revert b. induction a as [|c a IH]; intros b H H1 H2.
  - destruct b as [|c b]; cbn in H.
    + now injection H.
    + injection H as Hc Hd. subst d1.
      rewrite contains_append in H1. cbn in H1.
      rewrite orb_true_r in H1. discriminate.
  - destruct b as [|c' b]; cbn in H.
    + injection H as Hc Hd. subst d2.
      rewrite contains_append in H2. cbn in H2.
      rewrite orb_true_r in H2. discriminate.
    + injection H as _ H. exact (IH b H H1 H2).
Qed.

Lemma renderFiles_keys (fs : list FileWithPreview) :
  forall index key,
    In key (map FileInput.rowKey (FileInput.renderFiles index fs)) ->
    exists nm j, (index <= j)%N /\ key = (nm ++ "-" ++ decimalOfN j)%string.
Proof.
  induction fs as [|f fs IH]; intros index key H; [contradiction|].
  cbn [FileInput.renderFiles map FileInput.rowKey In] in H.
  destruct H as [<-|H].
  - exists (name (asFile f)), index. split; [lia | reflexivity].
  - destruct (IH _ _ H) as (nm & j & Hj & ->).
    exists nm, j. split; [lia | reflexivity].
Qed.

End KeyFacts.

(** The React keys of the rows are pairwise distinct, whatever the names
    of the files: two files with the same name, or with names that end in a
    hyphen and digits, still get different keys. *)
Theorem row_keys_distinct (fs : list FileWithPreview) (index : N) :
  NoDup (map FileInput.rowKey (FileInput.renderFiles index fs)).
Proof.
  revert index. induction fs as [|f fs IH]; intros index; [constructor|].
  cbn [FileInput.renderFiles map FileInput.rowKey].
  constructor; [|apply IH].
  intros Hin. destruct (KeyFacts.renderFiles_keys fs _ _ Hin) as (nm & j & Hj & E).
  apply KeyFacts.key_suffix_unique in E;
    try apply KeyFacts.decimalOfN_no_dash.
  apply KeyFacts.decimalOfN_inj in E. lia.
Qed.

(** ** Preview URLs are not shared *)

Section FreshFacts.

Variable props : UseFileHandlerProps.

Lemma previewUrls_app (l1 l2 : list FileWithPreview) :
  previewUrls (l1 ++ l2) = previewUrls l1 ++ previewUrls l2.
Proof. unfold previewUrls. apply flat_map_app. Qed.

Lemma blobUrl_inj (k j : N) : blobUrl k = blobUrl j -> k = j.
Proof.
  unfold blobUrl. cbn [String.append]. intros H.
  injection H as H. now apply KeyFacts.decimalOfN_inj.
Qed.

Lemma acceptedOf_urls (l : list File) :
  forall next,
    NoDup (previewUrls (acceptedOf props l next))
    /\ forall url, In url (previewUrls (acceptedOf props l next)) ->
         exists k, (next <= k
                    < next + N.of_nat (List.length
                                         (previewUrls (acceptedOf props l next))))%N
                   /\ url = blobUrl k.
Proof.
  induction l as [|file l IH]; intros next.
  - split; [constructor | contradiction].
  - cbn [acceptedOf].
    destruct (truthyError (validateFile props file)); [apply IH|].
    destruct (Str.startsWith (type file) "image/").
    + change (previewUrls (withPreview (spread file)
                             ("blob:" ++ Num.decimalOfN next)%string
                           :: acceptedOf props l (N.succ next)))
        with (blobUrl next :: previewUrls (acceptedOf props l (N.succ next))).
      destruct (IH (N.succ next)) as [Hnd Hin]. split.
      * constructor; [|exact Hnd].
        intros H. destruct (Hin _ H) as (k & Hk & E).
        apply blobUrl_inj in E. lia.
      * intros url [<-|H].
        -- exists next. cbn [List.length]. split; [lia | reflexivity].
        -- destruct (Hin _ H) as (k & Hk & E). exists k.
           cbn [List.length]. split; [lia | exact E].
    + change (previewUrls (spread file :: acceptedOf props l next))
        with (previewUrls (acceptedOf props l next)).
      apply IH.
Qed.

Lemma previewUrls_firstn_incl (k : nat) (l : list FileWithPreview) :
  NoDup (previewUrls l) ->
  NoDup (previewUrls (firstn k l))
  /\ forall url, In url (previewUrls (firstn k l)) -> In url (previewUrls l).
Proof.
  intros H. rewrite <- (firstn_skipn k l) in H at 1.
  rewrite previewUrls_app in H. split.
  - exact (NoDup_app_remove_r _ _ H).
  - intros url Hin. rewrite <- (firstn_skipn k l), previewUrls_app.
    apply in_or_app. now left.
Qed.

Lemma newFilesOf_shape (fs accepted nf : list FileWithPreview) :
  newFilesOf props fs accepted = Some nf ->
  exists k, nf = firstn k accepted \/ nf = fs ++ firstn k accepted.
Proof.
  unfold newFilesOf, slice0.
  destruct (maxFiles props =? 1).
  - intros [= <-]. destruct (maxFiles props <? 0); eexists; left; reflexivity.
  - destruct (maxFiles props <? _).
    + destruct (0 <? _); [|discriminate]. intros [= <-].
      destruct (_ <? 0); eexists; right; reflexivity.
    + intros [= <-]. exists (List.length accepted). right.
      now rewrite firstn_all.
Qed.

Lemma previewUrls_filterNotIndex (index : nat) (l : list FileWithPreview) :
  forall i,
    NoDup (previewUrls l) ->
    NoDup (previewUrls (filterNotIndex index i l)).
Proof.
  induction l as [|f l IH]; intros i H; [constructor|].
  change (f :: l) with ([f] ++ l) in H. rewrite previewUrls_app in H.
  cbn [filterNotIndex]. destruct (Nat.eqb i index).
  - apply IH. exact (NoDup_app_remove_l _ _ H).
  - change (f :: filterNotIndex index (S i) l)
      with ([f] ++ filterNotIndex index (S i) l).
    rewrite previewUrls_app.
    apply NoDup_app.
    + exact (NoDup_app_remove_r _ _ H).
    + apply IH. exact (NoDup_app_remove_l _ _ H).
    + intros url H1 H2.
      apply previewUrls_member in H2. destruct H2 as (g & Hg & Hp & Hne).
      apply filterNotIndex_subset in Hg.
      assert (H3 : In url (previewUrls l))
        by (apply previewUrls_member; now exists g).
      clear - H H1 H3. induction (previewUrls [f]) as [|u us IHu];
        [contradiction|].
      cbn in H. inversion H as [|? ? Hnot Hrest]; subst.
      destruct H1 as [->|H1]; [apply Hnot, in_or_app; now right|].
      exact (IHu Hrest H1).
Qed.

Lemma dispatch_keeps_fresh (a : Action) (w : World) :
  Rendered w ->
  isAdoption a = false ->
  FreshPreviews w ->
  FreshPreviews (exec (dispatch props a) w).
Proof.
  intros [Hpf Hpe] Hna [Hnd Hold].
  destruct a as [batch|index|cf]; [| |discriminate];
    cbn [dispatch]; rewrite exec_seq; unfold exec at 1; rewrite rerender_run;
    unfold FreshPreviews; cbn [snd files nextUrl].
  - rewrite (handleFiles_exec props batch w _ _
               (validateSelectedFiles_run props batch w)).
    cbn [acceptedFiles nextUrl].
    destruct (acceptedOf_urls batch (nextUrl w)) as [Hand Hain].
    set (accepted := acceptedOf props batch (nextUrl w)) in *.
    set (count := N.of_nat (List.length (previewUrls accepted))) in *.
    assert (Hkeep : NoDup (previewUrls (files w))
                    /\ forall url, In url (previewUrls (files w)) ->
                         exists k, (k < nextUrl w + count)%N /\ url = blobUrl k).
    { split; [exact Hnd|]. intros url H.
      destruct (Hold _ H) as (k & Hk & E). exists k. split; [lia|exact E]. }
    destruct (0 <? List.length accepted)%nat;
      [|cbn [pendingFiles files nextUrl]; rewrite Hpf; exact Hkeep].
    destruct (newFilesOf props (files w) accepted) as [nf|] eqn:Hnew;
      [|cbn [pendingFiles files nextUrl]; rewrite Hpf; exact Hkeep].
    cbn [pendingFiles files nextUrl].
    destruct (newFilesOf_shape _ _ _ Hnew) as [k [->| ->]];
      destruct (previewUrls_firstn_incl k accepted Hand) as [Hfn Hfin].
    + split; [exact Hfn|]. intros url H.
      destruct (Hain _ (Hfin _ H)) as (j & Hj & E). exists j. split; [lia|exact E].
    + rewrite previewUrls_app. split.
      * apply NoDup_app; [exact Hnd | exact Hfn |].
        intros url H1 H2. destruct (Hold _ H1) as (j1 & Hj1 & E1).
        destruct (Hain _ (Hfin _ H2)) as (j2 & Hj2 & E2).
        rewrite E1 in E2. apply blobUrl_inj in E2. lia.
      * intros url H. apply in_app_or in H. destruct H as [H|H].
        -- destruct (Hold _ H) as (j & Hj & E). exists j. split; [lia|exact E].
        -- destruct (Hain _ (Hfin _ H)) as (j & Hj & E). exists j.
           split; [lia|exact E].
  - rewrite removeFile_exec. cbn [pendingFiles files nextUrl]. split.
    + apply previewUrls_filterNotIndex. exact Hnd.
    + intros url H. apply previewUrls_member in H.
      destruct H as (g & Hg & Hp & Hne). apply filterNotIndex_subset in Hg.
      apply Hold. apply previewUrls_member. now exists g.
Qed.

End FreshFacts.

(** As long as no [currentFiles] sequence is adopted, no two files of the
    list ever share a preview URL: every sequence of [handleFiles] and
    [removeFile] calls keeps the preview URLs of the list pairwise distinct
    (each being a URL the browser handed out). *)
Theorem previews_never_shared
        (props : UseFileHandlerProps) (actions : list Action) :
  forall w : World,
    Rendered w ->
    forallb (fun a => negb (isAdoption a)) actions = true ->
    FreshPreviews w ->
    FreshPreviews (exec (dispatchAll props actions) w).
Proof.
  induction actions as [|a actions IH]; intros w Hr Hna Hfresh.
  - exact Hfresh.
  - cbn [forallb] in Hna. apply andb_prop in Hna. destruct Hna as [Ha Hrest].
    cbn [dispatchAll]. rewrite exec_seq. apply IH.
    + apply dispatch_rendered.
    + exact Hrest.
    + apply dispatch_keeps_fresh; [assumption | | assumption].
      now destruct (isAdoption a).
Qed.

(** From the first render, through two selections and a removal. *)
Lemma previews_never_shared_witness :
  NoDup (previewUrls
           (files (exec (dispatchAll Sample.triple
                           [HandleFiles [Sample.a; Sample.b];
                            RemoveFile 0;
                            HandleFiles [Sample.c; Sample.d]])
                        mount))).
Proof.
  apply (previews_never_shared Sample.triple
           [HandleFiles [Sample.a; Sample.b]; RemoveFile 0;
            HandleFiles [Sample.c; Sample.d]] mount).
  - split; reflexivity.
  - reflexivity.
  - split; [constructor | contradiction].
Defined.

(** ** The cover view after a selection *)


